(** * Tetris: the game controller of [main.py]

    A shallow embedding of class [Game] (the controller and state machine of
    the game) and the proofs of its specification.  The controller's
    collaborators ([board.py], [pieces.py], [score.py], [ui.py]) are an
    interface, [Collaborators]; every theorem about the controller holds for
    all implementations of it, and [SpecModel] is one implementation, used to
    run the controller on concrete inputs. *)

From Stdlib Require Import ZArith List Bool Lia.
Import ListNotations.
Open Scope Z_scope.

(** ** Python strings *)

(** A Python [str] is a sequence of Unicode code points. *)
Module Py.

Definition str := list Z.

Fixpoint str_eqb (s t : str) : bool :=
  match s, t with
  | [], [] => true
  | a :: s', b :: t' => (a =? b) && str_eqb s' t'
  | _, _ => false
  end.

(** [bool(s)]: a string is true when it is not empty. *)
Definition truthy (s : str) : bool :=
  match s with [] => false | _ :: _ => true end.

(** [s[:-1]] *)
Definition drop_last (s : str) : str := removelast s.

Fixpoint startswith (s prefix : str) : bool :=
  match prefix, s with
  | [], _ => true
  | b :: prefix', a :: s' => (a =? b) && startswith s' prefix'
  | _ :: _, [] => false
  end.

(** [sub in s]: [sub] occurs in [s] as a substring. *)
Fixpoint contains (s sub : str) : bool :=
  startswith s sub ||
  match s with
  | [] => false
  | _ :: s' => contains s' sub
  end.

(** [s.isalnum()], given the test of one code point: every character is
    alphanumeric and there is at least one character. *)
Definition isalnum (alnum : Z -> bool) (s : str) : bool :=
  truthy s && forallb alnum s.

End Py.

(** ** The pygame constants and events the controller reads *)

Module pygame.

Definition K_BACKSPACE : Z := 8.
Definition K_RETURN : Z := 13.
Definition K_ESCAPE : Z := 27.
Definition K_SPACE : Z := 32.
Definition K_p : Z := 112.
Definition K_RIGHT : Z := 1073741903.
Definition K_LEFT : Z := 1073741904.
Definition K_DOWN : Z := 1073741905.
Definition K_UP : Z := 1073741906.

(** An event, by its [type]; [key] and [unicode] exist on key events only. *)
Inductive Event :=
| QUIT
| KEYDOWN (key : Z) (unicode : Py.str)
| KEYUP (key : Z)
| OTHER (type : Z).

(** pygame gives [unicode] as the one character typed, or as the empty
    string for a key that types none. *)
Definition well_formed (e : Event) : Prop :=
  match e with
  | KEYDOWN _ u => (length u <= 1)%nat
  | _ => True
  end.

End pygame.
Import pygame.

(** What a call reads from the process around it: [pygame.time.get_ticks()]
    and the state of Python's [random] module. *)
Record Env := { ticks : Z; seed : Z }.

(** ** Game states *)

Inductive GameState :=
| MENU | PLAYING | PAUSED | GAME_OVER | RANKINGS | SETTINGS.

Definition GameState_eqb (a b : GameState) : bool :=
  match a, b with
  | MENU, MENU | PLAYING, PLAYING | PAUSED, PAUSED
  | GAME_OVER, GAME_OVER | RANKINGS, RANKINGS | SETTINGS, SETTINGS => true
  | _, _ => false
  end.

(** ** Pieces *)

(** Modelled from the spec: the attributes of a [Piece] of [pieces.py], which
    is not part of the sources at hand: "shape identifier (one of 7
    variants), rotation index (0-3), anchor position (x, y)".  The controller
    reads and writes [x], [y] and [rotation]. *)
Inductive Shape := I_ | O_ | T_ | S_ | Z_ | J_ | L_.

Module Piece.
Record t := { shape : Shape; rotation : Z; x : Z; y : Z }.

Definition set_x (v : Z) (p : t) : t :=
  {| shape := shape p; rotation := rotation p; x := v; y := y p |}.
Definition set_y (v : Z) (p : t) : t :=
  {| shape := shape p; rotation := rotation p; x := x p; y := v |}.
Definition set_rotation (v : Z) (p : t) : t :=
  {| shape := shape p; rotation := v; x := x p; y := y p |}.
End Piece.

(** ** The collaborators of the controller *)

(** The operations [main.py] calls on the board, the pieces, the piece
    generator, the score manager and the user interface.  A method that
    mutates its object returns the object's new value. *)
Class Collaborators := {
  Board : Type;
  PieceGenerator : Type;
  ScoreManager : Type;
  GameUI : Type;
  (* board.py *)
  Board_new : Board;
  level : Board -> Z;
  lines_cleared : Board -> Z;
  is_valid_position : Board -> Piece.t -> bool;
  add_piece : Board -> Piece.t -> bool * Board;
  hard_drop : Board -> Piece.t -> Z * Piece.t;
  (* pieces.py *)
  move_left : Piece.t -> Piece.t;
  move_right : Piece.t -> Piece.t;
  move_down : Piece.t -> Piece.t;
  rotate : Piece.t -> Piece.t;
  PieceGenerator_new : Z -> Z -> PieceGenerator;
  get_next_piece : PieceGenerator -> Piece.t * PieceGenerator;
  peek_next_pieces : PieceGenerator -> list Piece.t;
  (* score.py *)
  reset_score : ScoreManager -> ScoreManager;
  get_current_score : ScoreManager -> Z;
  is_highscore : ScoreManager -> bool;
  add_highscore : ScoreManager -> Py.str -> Z -> Z -> ScoreManager;
  (* ui.py *)
  menu_options : GameUI -> Py.str -> list Py.str;
  handle_menu_input : GameUI -> Event -> list Py.str -> option Py.str * GameUI;
  set_selected_option : Z -> GameUI -> GameUI;
  (* Python's Unicode tables: [c.isalnum()] for one code point *)
  isalnum_char : Z -> bool
}.

(** ** String literals of [main.py] *)

Module Lit.
(** "main" *)
Definition main : Py.str := [109; 97; 105; 110].
(** "pause" *)
Definition pause : Py.str := [112; 97; 117; 115; 101].
(** "Jugar" *)
Definition Jugar : Py.str := [74; 117; 103; 97; 114].
(** "Rankings" *)
Definition Rankings : Py.str := [82; 97; 110; 107; 105; 110; 103; 115].
(** "Configuracion", with o acute (243) *)
Definition Configuracion : Py.str :=
  [67; 111; 110; 102; 105; 103; 117; 114; 97; 99; 105; 243; 110].
(** "Salir" *)
Definition Salir : Py.str := [83; 97; 108; 105; 114].
(** "Continuar" *)
Definition Continuar : Py.str := [67; 111; 110; 116; 105; 110; 117; 97; 114].
(** "Reiniciar" *)
Definition Reiniciar : Py.str := [82; 101; 105; 110; 105; 99; 105; 97; 114].
(** "Salir al Menu", with u acute (250) *)
Definition Salir_al_Menu : Py.str :=
  [83; 97; 108; 105; 114; 32; 97; 108; 32; 77; 101; 110; 250].
(** "Anonimo", with o acute (243) *)
Definition Anonimo : Py.str := [65; 110; 243; 110; 105; 109; 111].
(** " -_" *)
Definition space_hyphen_underscore : Py.str := [32; 45; 95].
End Lit.

(** ** The controller: class [Game] *)

Section Controller.
Context {C : Collaborators}.

(** The attributes of a [Game] object. *)
Record Game := {
  score_manager : ScoreManager;
  ui : GameUI;
  running : bool;
  state : GameState;
  player_name : Py.str;
  input_active : bool;
  board : Board;
  piece_generator : PieceGenerator;
  current_piece : Piece.t;
  fall_speed : Z;
  fall_counter : Z;
  soft_drop_active : bool;
  key_repeat_delay : Z;
  key_repeat_interval : Z;
  last_key_time : Z;
  last_key : option Z
}.

(** Assignments to one attribute. *)
Definition set_score_manager (v : ScoreManager) (g : Game) : Game :=
  {| score_manager := v; ui := ui g; running := running g; state := state g;
     player_name := player_name g; input_active := input_active g;
     board := board g; piece_generator := piece_generator g;
     current_piece := current_piece g; fall_speed := fall_speed g;
     fall_counter := fall_counter g; soft_drop_active := soft_drop_active g;
     key_repeat_delay := key_repeat_delay g;
     key_repeat_interval := key_repeat_interval g;
     last_key_time := last_key_time g; last_key := last_key g |}.

Definition set_ui (v : GameUI) (g : Game) : Game :=
  {| score_manager := score_manager g; ui := v; running := running g;
     state := state g;
     player_name := player_name g; input_active := input_active g;
     board := board g; piece_generator := piece_generator g;
     current_piece := current_piece g; fall_speed := fall_speed g;
     fall_counter := fall_counter g; soft_drop_active := soft_drop_active g;
     key_repeat_delay := key_repeat_delay g;
     key_repeat_interval := key_repeat_interval g;
     last_key_time := last_key_time g; last_key := last_key g |}.

Definition set_running (v : bool) (g : Game) : Game :=
  {| score_manager := score_manager g; ui := ui g; running := v;
     state := state g;
     player_name := player_name g; input_active := input_active g;
     board := board g; piece_generator := piece_generator g;
     current_piece := current_piece g; fall_speed := fall_speed g;
     fall_counter := fall_counter g; soft_drop_active := soft_drop_active g;
     key_repeat_delay := key_repeat_delay g;
     key_repeat_interval := key_repeat_interval g;
     last_key_time := last_key_time g; last_key := last_key g |}.

Definition set_state (v : GameState) (g : Game) : Game :=
  {| score_manager := score_manager g; ui := ui g; running := running g;
     state := v;
     player_name := player_name g; input_active := input_active g;
     board := board g; piece_generator := piece_generator g;
     current_piece := current_piece g; fall_speed := fall_speed g;
     fall_counter := fall_counter g; soft_drop_active := soft_drop_active g;
     key_repeat_delay := key_repeat_delay g;
     key_repeat_interval := key_repeat_interval g;
     last_key_time := last_key_time g; last_key := last_key g |}.

Definition set_player_name (v : Py.str) (g : Game) : Game :=
  {| score_manager := score_manager g; ui := ui g; running := running g;
     state := state g;
     player_name := v; input_active := input_active g;
     board := board g; piece_generator := piece_generator g;
     current_piece := current_piece g; fall_speed := fall_speed g;
     fall_counter := fall_counter g; soft_drop_active := soft_drop_active g;
     key_repeat_delay := key_repeat_delay g;
     key_repeat_interval := key_repeat_interval g;
     last_key_time := last_key_time g; last_key := last_key g |}.

Definition set_board (v : Board) (g : Game) : Game :=
  {| score_manager := score_manager g; ui := ui g; running := running g;
     state := state g;
     player_name := player_name g; input_active := input_active g;
     board := v; piece_generator := piece_generator g;
     current_piece := current_piece g; fall_speed := fall_speed g;
     fall_counter := fall_counter g; soft_drop_active := soft_drop_active g;
     key_repeat_delay := key_repeat_delay g;
     key_repeat_interval := key_repeat_interval g;
     last_key_time := last_key_time g; last_key := last_key g |}.

Definition set_piece_generator (v : PieceGenerator) (g : Game) : Game :=
  {| score_manager := score_manager g; ui := ui g; running := running g;
     state := state g;
     player_name := player_name g; input_active := input_active g;
     board := board g; piece_generator := v;
     current_piece := current_piece g; fall_speed := fall_speed g;
     fall_counter := fall_counter g; soft_drop_active := soft_drop_active g;
     key_repeat_delay := key_repeat_delay g;
     key_repeat_interval := key_repeat_interval g;
     last_key_time := last_key_time g; last_key := last_key g |}.

Definition set_current_piece (v : Piece.t) (g : Game) : Game :=
  {| score_manager := score_manager g; ui := ui g; running := running g;
     state := state g;
     player_name := player_name g; input_active := input_active g;
     board := board g; piece_generator := piece_generator g;
     current_piece := v; fall_speed := fall_speed g;
     fall_counter := fall_counter g; soft_drop_active := soft_drop_active g;
     key_repeat_delay := key_repeat_delay g;
     key_repeat_interval := key_repeat_interval g;
     last_key_time := last_key_time g; last_key := last_key g |}.

Definition set_fall_counter (v : Z) (g : Game) : Game :=
  {| score_manager := score_manager g; ui := ui g; running := running g;
     state := state g;
     player_name := player_name g; input_active := input_active g;
     board := board g; piece_generator := piece_generator g;
     current_piece := current_piece g; fall_speed := fall_speed g;
     fall_counter := v; soft_drop_active := soft_drop_active g;
     key_repeat_delay := key_repeat_delay g;
     key_repeat_interval := key_repeat_interval g;
     last_key_time := last_key_time g; last_key := last_key g |}.

Definition set_soft_drop_active (v : bool) (g : Game) : Game :=
  {| score_manager := score_manager g; ui := ui g; running := running g;
     state := state g;
     player_name := player_name g; input_active := input_active g;
     board := board g; piece_generator := piece_generator g;
     current_piece := current_piece g; fall_speed := fall_speed g;
     fall_counter := fall_counter g; soft_drop_active := v;
     key_repeat_delay := key_repeat_delay g;
     key_repeat_interval := key_repeat_interval g;
     last_key_time := last_key_time g; last_key := last_key g |}.

Definition set_last_key_time (v : Z) (g : Game) : Game :=
  {| score_manager := score_manager g; ui := ui g; running := running g;
     state := state g;
     player_name := player_name g; input_active := input_active g;
     board := board g; piece_generator := piece_generator g;
     current_piece := current_piece g; fall_speed := fall_speed g;
     fall_counter := fall_counter g; soft_drop_active := soft_drop_active g;
     key_repeat_delay := key_repeat_delay g;
     key_repeat_interval := key_repeat_interval g;
     last_key_time := v; last_key := last_key g |}.

Definition set_last_key (v : option Z) (g : Game) : Game :=
  {| score_manager := score_manager g; ui := ui g; running := running g;
     state := state g;
     player_name := player_name g; input_active := input_active g;
     board := board g; piece_generator := piece_generator g;
     current_piece := current_piece g; fall_speed := fall_speed g;
     fall_counter := fall_counter g; soft_drop_active := soft_drop_active g;
     key_repeat_delay := key_repeat_delay g;
     key_repeat_interval := key_repeat_interval g;
     last_key_time := last_key_time g; last_key := v |}.

(** [self.ui.selected_option = 0] *)
Definition reset_selected_option (g : Game) : Game :=
  set_ui (set_selected_option 0 (ui g)) g.

(** [_init_game]: a new board, a new generator with a preview of 3, the
    first piece drawn from it, the timing attributes, and the score reset.
    The other attributes are kept. *)
Definition _init_game (env : Env) (g : Game) : Game :=
  let preview_count := 3 in
  let drawn := get_next_piece (PieceGenerator_new preview_count (seed env)) in
  {| score_manager := reset_score (score_manager g);
     ui := ui g; running := running g; state := state g;
     player_name := player_name g; input_active := input_active g;
     board := Board_new;
     piece_generator := snd drawn;
     current_piece := fst drawn;
     fall_speed := 30;
     fall_counter := 0;
     soft_drop_active := false;
     key_repeat_delay := 170;
     key_repeat_interval := 50;
     last_key_time := 0;
     last_key := None |}.

(** [__init__], with the score manager (as loaded from storage) and the
    user interface it creates.  The attributes [_init_game] assigns are
    written here with the values [_init_game] gives them. *)
Definition __init__ (sm : ScoreManager) (u : GameUI) (env : Env) : Game :=
  let drawn := get_next_piece (PieceGenerator_new 3 (seed env)) in
  _init_game env
    {| score_manager := sm; ui := u; running := true; state := MENU;
       player_name := []; input_active := false;
       board := Board_new; piece_generator := snd drawn;
       current_piece := fst drawn; fall_speed := 30; fall_counter := 0;
       soft_drop_active := false; key_repeat_delay := 170;
       key_repeat_interval := 50; last_key_time := 0; last_key := None |}.

(** The move [_apply_key_movement] tries for a key: the [if]/[elif] chain
    over [move_left], [move_right] and [rotate]. *)
Definition moved (key : Z) (p : Piece.t) : Piece.t :=
  if key =? K_LEFT then move_left p
  else if key =? K_RIGHT then move_right p
  else if key =? K_UP then rotate p
  else p.

Definition _apply_key_movement (key : Z) (g : Game) : Game :=
  let original_x := Piece.x (current_piece g) in
  let original_y := Piece.y (current_piece g) in
  let original_rotation := Piece.rotation (current_piece g) in
  let p := moved key (current_piece g) in
  if negb (is_valid_position (board g) p) then
    let p := Piece.set_x original_x p in
    let p := Piece.set_y original_y p in
    let p := if key =? K_UP then Piece.set_rotation original_rotation p
             else p in
    set_current_piece p g
  else set_current_piece p g.

(** The part [_move_piece_down] and [_perform_hard_drop] share, from
    [add_piece] on: lock the piece, draw the next one, check its place. *)
Definition lock_and_spawn (p : Piece.t) (g : Game) : Game :=
  let locked := add_piece (board g) p in
  let g := set_board (snd locked) (set_current_piece p g) in
  if negb (fst locked) then set_state GAME_OVER g
  else
    let drawn := get_next_piece (piece_generator g) in
    let g := set_piece_generator (snd drawn)
               (set_current_piece (fst drawn) g) in
    if negb (is_valid_position (board g) (current_piece g))
    then set_state GAME_OVER g
    else g.

Definition _move_piece_down (g : Game) : Game :=
  let original_y := Piece.y (current_piece g) in
  let p := move_down (current_piece g) in
  if negb (is_valid_position (board g) p) then
    lock_and_spawn (Piece.set_y original_y p) g
  else set_current_piece p g.

Definition _perform_hard_drop (g : Game) : Game :=
  let dropped := hard_drop (board g) (current_piece g) in
  lock_and_spawn (snd dropped) g.

(** The test of the key repeat in [_update_game]:
    [self.last_key and current_time - self.last_key_time >
     self.key_repeat_delay]; a key code is true when it is not 0. *)
Definition repeat_due (current_time : Z) (g : Game) : option Z :=
  match last_key g with
  | Some k =>
      if negb (k =? 0)
         && (current_time - last_key_time g >? key_repeat_delay g)
      then Some k else None
  | None => None
  end.

(** The key-repeat block of [_update_game]: when the repeat is due, the
    movement of the held key and the new [last_key_time]. *)
Definition key_repeat (current_time : Z) (g : Game) : Game :=
  match repeat_due current_time g with
  | Some k =>
      set_last_key_time
        (current_time - (key_repeat_interval g - key_repeat_delay g))
        (_apply_key_movement k g)
  | None => g
  end.

Definition _update_game (env : Env) (g : Game) : Game :=
  let current_time := ticks env in
  let g := key_repeat current_time g in
  let fall_speed_decrement := 1 in
  let min_fall_speed := 5 in
  let initial_fall_speed := 30 in
  let level_fall_speed :=
    Z.max min_fall_speed
          (initial_fall_speed - (level (board g) - 1) * fall_speed_decrement) in
  let fall_speed :=
    if soft_drop_active g then level_fall_speed / 4 else level_fall_speed in
  let g := set_fall_counter (fall_counter g + 1) g in
  if fall_counter g >=? fall_speed then
    set_fall_counter 0 (_move_piece_down g)
  else g.

Definition _update (env : Env) (g : Game) : Game :=
  if GameState_eqb (state g) PLAYING then _update_game env g else g.

Definition _handle_menu_events (env : Env) (event : Event) (g : Game) : Game :=
  let r := handle_menu_input (ui g) event (menu_options (ui g) Lit.main) in
  let g := set_ui (snd r) g in
  match fst r with
  | Some action =>
      if Py.str_eqb action Lit.Jugar then set_state PLAYING (_init_game env g)
      else if Py.str_eqb action Lit.Rankings
      then set_state RANKINGS (reset_selected_option g)
      else if Py.str_eqb action Lit.Configuracion
      then set_state SETTINGS (reset_selected_option g)
      else if Py.str_eqb action Lit.Salir then set_running false g
      else g
  | None => g
  end.

Definition _handle_game_events (env : Env) (event : Event) (g : Game) : Game :=
  match event with
  | KEYDOWN key _ =>
      let pause_key := K_p in
      let exit_key := K_ESCAPE in
      let hard_drop_key := K_SPACE in
      let move_down_key := K_DOWN in
      if key =? pause_key then reset_selected_option (set_state PAUSED g)
      else if key =? exit_key then reset_selected_option (set_state MENU g)
      else if key =? hard_drop_key then _perform_hard_drop g
      else
        let g := if key =? move_down_key then set_soft_drop_active true g
                 else g in
        let g := set_last_key (Some key) g in
        let g := set_last_key_time (ticks env) g in
        _apply_key_movement key g
  | KEYUP key =>
      let move_down_key := K_DOWN in
      let g := if key =? move_down_key then set_soft_drop_active false g
               else g in
      match last_key g with
      | Some k => if key =? k then set_last_key None g else g
      | None => g
      end
  | _ => g
  end.

Definition _handle_pause_events (env : Env) (event : Event) (g : Game) : Game :=
  let r := handle_menu_input (ui g) event (menu_options (ui g) Lit.pause) in
  let g := set_ui (snd r) g in
  match fst r with
  | Some action =>
      if Py.str_eqb action Lit.Continuar then set_state PLAYING g
      else if Py.str_eqb action Lit.Reiniciar
      then set_state PLAYING (_init_game env g)
      else if Py.str_eqb action Lit.Salir_al_Menu
      then reset_selected_option (set_state MENU g)
      else g
  | None => g
  end.

(** The characters the name entry accepts:
    [event.unicode.isalnum() or event.unicode in " -_"]. *)
Definition accepted (unicode : Py.str) : bool :=
  Py.isalnum isalnum_char unicode
  || Py.contains Lit.space_hyphen_underscore unicode.

Definition _handle_game_over_events (event : Event) (g : Game) : Game :=
  if is_highscore (score_manager g) then
    match event with
    | KEYDOWN key unicode =>
        if key =? K_RETURN then
          let name := if Py.truthy (player_name g) then player_name g
                      else Lit.Anonimo in
          let g := set_score_manager
                     (add_highscore (score_manager g) name
                        (level (board g)) (lines_cleared (board g))) g in
          let g := set_state MENU g in
          let g := reset_selected_option g in
          set_player_name [] g
        else if key =? K_BACKSPACE then
          set_player_name (Py.drop_last (player_name g)) g
        else if (Z.of_nat (length (player_name g)) <? 15) then
          if accepted unicode
          then set_player_name (player_name g ++ unicode) g
          else g
        else g
    | _ => g
    end
  else g.

Definition _handle_rankings_events (event : Event) (g : Game) : Game :=
  match event with
  | KEYDOWN key _ =>
      let exit_key := K_ESCAPE in
      if key =? exit_key then reset_selected_option (set_state MENU g) else g
  | _ => g
  end.

Definition _handle_settings_events (event : Event) (g : Game) : Game :=
  reset_selected_option (set_state MENU g).

(** The body of the loop of [_handle_events] for an event that is not
    [QUIT]: the handler of the current state. *)
Definition dispatch (env : Env) (event : Event) (g : Game) : Game :=
  match state g with
  | MENU => _handle_menu_events env event g
  | PLAYING => _handle_game_events env event g
  | PAUSED => _handle_pause_events env event g
  | GAME_OVER => _handle_game_over_events event g
  | RANKINGS => _handle_rankings_events event g
  | SETTINGS => _handle_settings_events event g
  end.

(** [_handle_events] on the events [pygame.event.get()] returned, each with
    what its handler reads from the process.  [QUIT] clears [running] and
    returns, leaving the events after it. *)
Fixpoint _handle_events (events : list (Env * Event)) (g : Game) : Game :=
  match events with
  | [] => g
  | (env, event) :: rest =>
      match event with
      | QUIT => set_running false g
      | _ => _handle_events rest (dispatch env event g)
      end
  end.

(** The states the controller reaches: from [__init__], by handling
    well-formed events and by updates. *)
Inductive reachable : Game -> Prop :=
| reachable_init sm u env : reachable (__init__ sm u env)
| reachable_events g events :
    reachable g ->
    Forall (fun ee => well_formed (snd ee)) events ->
    reachable (_handle_events events g)
| reachable_update g env : reachable g -> reachable (_update env g).

(** ** The main loop: [Game.run] *)

(** Exceptions, as far as the handlers of [run] tell them apart:
    [pygame.error] is an [Exception]; [KeyboardInterrupt] and the other
    direct subclasses of [BaseException] ([SystemExit], ...) are not. *)
Inductive exn :=
| KeyboardInterrupt
| BaseException (tag : Z)
| pygame_error (video_system_not_initialized : bool)
| Exception (tag : Z).

Definition isinstance_Exception (e : exn) : bool :=
  match e with
  | KeyboardInterrupt | BaseException _ => false
  | pygame_error _ | Exception _ => true
  end.

(** The calls of [run] on its collaborators that reach outside the game
    object. *)
Inductive call :=
| save_highscores
| display_quit
| display_init
| pygame_quit.

Definition call_eqb (a b : call) : bool :=
  match a, b with
  | save_highscores, save_highscores | display_quit, display_quit
  | display_init, display_init | pygame_quit, pygame_quit => true
  | _, _ => false
  end.

(** How often a call occurs in a trace. *)
Definition count (c : call) (trace : list call) : nat :=
  length (filter (call_eqb c) trace).

(** What restarting the video system does after a "video system not
    initialized" error: both calls return, or one of them raises. *)
Inductive Restart := restarted | quit_raises | init_raises.

(** What [_render] does in one iteration. *)
Inductive Render := drawn | render_raises (e : exn) (r : Restart).

(** What the world does during one iteration of the loop: an exception
    leaves [_handle_events] or [_update] (a [KeyboardInterrupt] falls here
    too), or the events arrive, the update runs and [_render] is called. *)
Inductive Frame :=
| body_raises (e : exn)
| frame (events : list (Env * Event)) (env : Env) (r : Render).

(** How the [while] loop is left. *)
Inductive LoopExit :=
| loop_done (g : Game)
| loop_raised (e : exn).

(** The [while self.running] loop over the iterations the script gives;
    [None] when the script ends with the loop still running. *)
Fixpoint main_loop (script : list Frame) (g : Game)
  : option (LoopExit * list call) :=
  if running g then
    match script with
    | [] => None
    | body_raises e :: _ => Some (loop_raised e, [])
    | frame events env r :: rest =>
        let g := _handle_events events g in
        let g := _update env g in
        match r with
        | drawn => main_loop rest g
        | render_raises (pygame_error true) restarted =>
            (* continue *)
            match main_loop rest g with
            | Some (x, trace) => Some (x, display_quit :: display_init :: trace)
            | None => None
            end
        | render_raises (pygame_error true) quit_raises =>
            (* self.running = False; break *)
            Some (loop_done (set_running false g), [display_quit])
        | render_raises (pygame_error true) init_raises =>
            Some (loop_done (set_running false g), [display_quit; display_init])
        | render_raises (pygame_error false) _ => main_loop rest g
        | render_raises e _ => Some (loop_raised e, [])
        end
    end
  else Some (loop_done g, []).

(** What the calls of the [finally] clause do: each returns or raises. *)
Record Shutdown := {
  save_raises : option exn;
  display_quit_raises : option exn;
  pygame_quit_raises : option exn
}.

(** How [run] is left: it returns, or an exception leaves it. *)
Inductive Exit :=
| returned
| propagated (e : exn).

(** The [try] ... [except Exception as e] around the clean-up calls of the
    [finally] clause; [pending] is how [run] is left when nothing else is
    raised. *)
Definition clean_up (sd : Shutdown) (pending : Exit) : Exit * list call :=
  match display_quit_raises sd with
  | Some e =>
      (if isinstance_Exception e then pending else propagated e,
       [display_quit])
  | None =>
      match pygame_quit_raises sd with
      | Some e =>
          (if isinstance_Exception e then pending else propagated e,
           [display_quit; pygame_quit])
      | None => (pending, [display_quit; pygame_quit])
      end
  end.

(** [run]: the loop, the two [except] clauses and the [finally] clause. *)
Definition run (script : list Frame) (sd : Shutdown) (g : Game)
  : option (Exit * list call) :=
  match main_loop script g with
  | None => None
  | Some (x, trace) =>
      let pending :=
        match x with
        | loop_done _ => returned
        | loop_raised KeyboardInterrupt => returned
        | loop_raised e => propagated e
        end in
      (* finally *)
      match save_raises sd with
      | Some e => Some (propagated e, trace ++ [save_highscores])
      | None =>
          let c := clean_up sd pending in
          Some (fst c, trace ++ save_highscores :: snd c)
      end
  end.

End Controller.

(** ** An implementation of the collaborators *)

(** The modules [board.py], [pieces.py], [score.py] and [ui.py] are not part
    of the sources at hand.  [SpecModel] implements [Collaborators] after
    their description in the specification; the controller is run on it
    wherever a theorem is applied to a concrete game. *)
Module SpecModel.

(** Modelled from the spec: the cell-offset table of [pieces.py] ("a fixed
    per-variant per-rotation cell-offset table"), as the cells of each shape
    in a box of 4 by 4 and the quarter turn of the box. *)
Definition base_cells (s : Shape) : list (Z * Z) :=
  match s with
  | I_ => [(0, 1); (1, 1); (2, 1); (3, 1)]
  | O_ => [(1, 1); (2, 1); (1, 2); (2, 2)]
  | T_ => [(1, 1); (0, 2); (1, 2); (2, 2)]
  | S_ => [(1, 1); (2, 1); (0, 2); (1, 2)]
  | Z_ => [(0, 1); (1, 1); (1, 2); (2, 2)]
  | J_ => [(0, 1); (0, 2); (1, 2); (2, 2)]
  | L_ => [(2, 1); (0, 2); (1, 2); (2, 2)]
  end.

Definition turn (c : Z * Z) : Z * Z := (3 - snd c, fst c).

Definition offsets (s : Shape) (r : Z) : list (Z * Z) :=
  Nat.iter (Z.to_nat (r mod 4)) (map turn) (base_cells s).

(** Modelled from the spec: the cells of a piece of [pieces.py], "anchor +
    offsets for its rotation". *)
Definition cells (p : Piece.t) : list (Z * Z) :=
  map (fun c => (Piece.x p + fst c, Piece.y p + snd c))
      (offsets (Piece.shape p) (Piece.rotation p)).

(** Modelled from the spec: the moves of a piece of [pieces.py], one column
    or one row at a time, and "rotation is modulo-4 cycling". *)
Definition move_left (p : Piece.t) : Piece.t := Piece.set_x (Piece.x p - 1) p.
Definition move_right (p : Piece.t) : Piece.t := Piece.set_x (Piece.x p + 1) p.
Definition move_down (p : Piece.t) : Piece.t := Piece.set_y (Piece.y p + 1) p.
Definition rotate (p : Piece.t) : Piece.t :=
  Piece.set_rotation ((Piece.rotation p + 1) mod 4) p.

(** Modelled from the spec: the board of [board.py], "a fixed-width x
    fixed-height grid of cells (standard: 10 columns x 20 rows)" with
    [level] and [lines_cleared]; a cell holds the shape locked there. *)
Definition width : Z := 10.
Definition height : Z := 20.
Definition lines_per_level : Z := 10.

Record Board := {
  grid : list (list (option Shape));
  board_level : Z;
  board_lines_cleared : Z
}.

Definition empty_row : list (option Shape) := repeat None (Z.to_nat width).

Definition Board_new : Board :=
  {| grid := repeat empty_row (Z.to_nat height);
     board_level := 1; board_lines_cleared := 0 |}.

Definition occupied (g : list (list (option Shape))) (c : Z * Z) : bool :=
  match nth_error g (Z.to_nat (snd c)) with
  | Some row =>
      match nth_error row (Z.to_nat (fst c)) with
      | Some (Some _) => true
      | _ => false
      end
  | None => false
  end.

(** Modelled from the spec: [is_valid_position] of [board.py], "all of the
    piece's occupied cells are within horizontal bounds [0, width), within
    vertical bound (< height, allowing cells above row 0 for spawn), and not
    overlapping an occupied cell". *)
Definition is_valid_position (b : Board) (p : Piece.t) : bool :=
  forallb (fun c =>
             (0 <=? fst c) && (fst c <? width) && (snd c <? height)
             && ((snd c <? 0) || negb (occupied (grid b) c)))
          (cells p).

Fixpoint set_nth {A : Type} (n : nat) (v : A) (l : list A) : list A :=
  match l, n with
  | [], _ => []
  | _ :: l', O => v :: l'
  | a :: l', S n' => a :: set_nth n' v l'
  end.

Definition lock_cell (s : Shape) (g : list (list (option Shape))) (c : Z * Z)
  : list (list (option Shape)) :=
  if snd c <? 0 then g
  else
    match nth_error g (Z.to_nat (snd c)) with
    | Some row =>
        set_nth (Z.to_nat (snd c)) (set_nth (Z.to_nat (fst c)) (Some s) row) g
    | None => g
    end.

Definition full (row : list (option Shape)) : bool :=
  forallb (fun c => match c with Some _ => true | None => false end) row.

(** Modelled from the spec: the line clear of [board.py], "all full rows are
    removed simultaneously, remaining rows above shift down, and new empty
    rows are inserted at the top"; the number of rows cleared is returned. *)
Definition clear_lines (g : list (list (option Shape)))
  : Z * list (list (option Shape)) :=
  let kept := filter (fun row => negb (full row)) g in
  let n := (length g - length kept)%nat in
  (Z.of_nat n, repeat empty_row n ++ kept).

(** Modelled from the spec: [add_piece] of [board.py], which "locks every
    occupied cell of the piece into the grid, returns failure if any target
    cell is already occupied or the piece's position is invalid at call
    time; otherwise triggers line-clear detection and returns success", with
    "level increases by 1 every fixed number of cumulative lines cleared". *)
Definition add_piece (b : Board) (p : Piece.t) : bool * Board :=
  if is_valid_position b p then
    let cleared := clear_lines
                     (fold_left (lock_cell (Piece.shape p)) (cells p) (grid b)) in
    let lines := board_lines_cleared b + fst cleared in
    (true, {| grid := snd cleared;
              board_level := 1 + lines / lines_per_level;
              board_lines_cleared := lines |})
  else (false, b).

Fixpoint drop (fuel : nat) (b : Board) (p : Piece.t) (distance : Z)
  : Z * Piece.t :=
  match fuel with
  | O => (distance, p)
  | S fuel' =>
      if is_valid_position b (move_down p)
      then drop fuel' b (move_down p) (distance + 1)
      else (distance, p)
  end.

(** Modelled from the spec: [hard_drop] of [board.py], which "repeatedly
    moves the piece down while [is_valid_position] holds, stopping at the
    last valid row" and "returns the number of rows descended".  A valid
    piece has its anchor above row [height], which bounds the descent. *)
Definition hard_drop (b : Board) (p : Piece.t) : Z * Piece.t :=
  drop (Z.to_nat (height - Piece.y p)) b p 0.

(** Modelled from the spec: the generator of [pieces.py], "a shuffled bag of
    the 7 variants (refilled when exhausted) plus a lookahead queue of
    length [preview_count]".  The shuffle is a rotation of the seven shapes
    by a pseudo-random number. *)
Record PieceGenerator := {
  queue : list Shape;
  bag : list Shape;
  rng : Z
}.

Definition all_shapes : list Shape := [I_; O_; T_; S_; Z_; J_; L_].

Definition shuffle (r : Z) : list Shape :=
  let k := Z.to_nat (r mod 7) in
  skipn k all_shapes ++ firstn k all_shapes.

Definition next_rng (r : Z) : Z := (r * 1103515245 + 12345) mod 2147483648.

Definition spawn (s : Shape) : Piece.t :=
  {| Piece.shape := s; Piece.rotation := 0; Piece.x := 3; Piece.y := 0 |}.

(** One shape from the bag into the queue, with a fresh bag when the bag is
    empty. *)
Definition refill (g : PieceGenerator) : PieceGenerator :=
  match bag g with
  | s :: rest => {| queue := queue g ++ [s]; bag := rest; rng := rng g |}
  | [] =>
      match shuffle (rng g) with
      | s :: rest =>
          {| queue := queue g ++ [s]; bag := rest; rng := next_rng (rng g) |}
      | [] => g
      end
  end.

Definition PieceGenerator_new (preview_count random_state : Z)
  : PieceGenerator :=
  Nat.iter (Z.to_nat preview_count) refill
           {| queue := []; bag := []; rng := random_state |}.

(** Modelled from the spec: [get_next_piece] of [pieces.py], which "pops the
    front of the lookahead queue, refills the queue from the bag, returns
    the popped piece instantiated at the spawn anchor". *)
Definition get_next_piece (g : PieceGenerator) : Piece.t * PieceGenerator :=
  match queue g with
  | s :: rest =>
      (spawn s, refill {| queue := rest; bag := bag g; rng := rng g |})
  | [] =>
      let g' := refill g in
      match queue g' with
      | s :: rest => (spawn s, {| queue := rest; bag := bag g'; rng := rng g' |})
      | [] => (spawn I_, g')
      end
  end.

Definition peek_next_pieces (g : PieceGenerator) : list Piece.t :=
  map spawn (queue g).

(** Modelled from the spec: the score manager of [score.py], "current score
    (non-negative integer), ordered list of highscore records (name, score,
    level, lines)", "sorted descending by score and capped at a fixed maximum
    length". *)
Record HighScore := {
  hs_name : Py.str;
  hs_score : Z;
  hs_level : Z;
  hs_lines : Z
}.

Record ScoreManager := {
  current_score : Z;
  highscores : list HighScore
}.

Definition max_highscores : nat := 10.

Definition reset_score (sm : ScoreManager) : ScoreManager :=
  {| current_score := 0; highscores := highscores sm |}.

(** Modelled from the spec: [is_highscore] of [score.py], which "reports
    whether the current score would enter the persisted top-N list": the
    list has room, or holds a smaller score. *)
Definition is_highscore (sm : ScoreManager) : bool :=
  (length (highscores sm) <? max_highscores)%nat
  || existsb (fun r => hs_score r <? current_score sm) (highscores sm).

Fixpoint insert_record (r : HighScore) (l : list HighScore) : list HighScore :=
  match l with
  | [] => [r]
  | a :: l' =>
      if hs_score a <? hs_score r then r :: a :: l'
      else a :: insert_record r l'
  end.

(** Modelled from the spec: [add_highscore] of [score.py], which "inserts a
    new record, re-sorts descending by score, truncates to the cap". *)
Definition add_highscore (sm : ScoreManager) (name : Py.str) (lvl lines : Z)
  : ScoreManager :=
  let r := {| hs_name := name; hs_score := current_score sm;
              hs_level := lvl; hs_lines := lines |} in
  {| current_score := current_score sm;
     highscores := firstn max_highscores (insert_record r (highscores sm)) |}.

(** Modelled from the spec: the menus of [ui.py].  The specification leaves
    the user interface out of its scope; here a menu is the list of its
    options, the up and down keys move the selection and the confirm key
    returns the selected option. *)
Record GameUI := { selected_option : Z }.

Definition menu_options (u : GameUI) (menu : Py.str) : list Py.str :=
  if Py.str_eqb menu Lit.main
  then [Lit.Jugar; Lit.Rankings; Lit.Configuracion; Lit.Salir]
  else if Py.str_eqb menu Lit.pause
  then [Lit.Continuar; Lit.Reiniciar; Lit.Salir_al_Menu]
  else [].

Definition handle_menu_input (u : GameUI) (event : Event)
  (options : list Py.str) : option Py.str * GameUI :=
  match event with
  | KEYDOWN key _ =>
      let n := Z.of_nat (length options) in
      if key =? K_UP
      then (None, {| selected_option := (selected_option u - 1) mod n |})
      else if key =? K_DOWN
      then (None, {| selected_option := (selected_option u + 1) mod n |})
      else if key =? K_RETURN
      then (nth_error options (Z.to_nat (selected_option u)), u)
      else (None, u)
  | _ => (None, u)
  end.

Definition set_selected_option (v : Z) (u : GameUI) : GameUI :=
  {| selected_option := v |}.

(** Python's [c.isalnum()] on the code points below 256, where this table
    is the one of Python: the ASCII digits and letters; the letters 170,
    181 and 186; the superscript digits 178, 179 and 185; the fractions 188
    to 190; and the letters from 192 on but for the signs 215 and 247.  The
    table ends at 255: this implementation takes no code point above it as
    alphanumeric, and the games played on it type none. *)
Definition isalnum_char (c : Z) : bool :=
  ((48 <=? c) && (c <=? 57))
  || ((65 <=? c) && (c <=? 90))
  || ((97 <=? c) && (c <=? 122))
  || (c =? 170) || (c =? 178) || (c =? 179) || (c =? 181)
  || (c =? 185) || (c =? 186)
  || ((188 <=? c) && (c <=? 190))
  || ((192 <=? c) && (c <=? 255) && negb (c =? 215) && negb (c =? 247)).

Definition model : Collaborators :=
  Build_Collaborators
    Board PieceGenerator ScoreManager GameUI
    Board_new board_level board_lines_cleared is_valid_position add_piece
    hard_drop
    move_left move_right move_down rotate
    PieceGenerator_new get_next_piece peek_next_pieces
    reset_score current_score is_highscore add_highscore
    menu_options handle_menu_input set_selected_option
    isalnum_char.

(** A game on this implementation: a new [Game] object whose score manager
    loaded the given records. *)
Definition new_game (records : list HighScore) (random_state : Z)
  : Game (C := model) :=
  __init__ (C := model)
    {| current_score := 0; highscores := records |}
    {| selected_option := 0 |}
    {| ticks := 0; seed := random_state |}.

Definition keydown (t key : Z) (unicode : Py.str) : Env * Event :=
  ({| ticks := t; seed := 0 |}, KEYDOWN key unicode).

Definition keyup (t key : Z) : Env * Event :=
  ({| ticks := t; seed := 0 |}, KEYUP key).

End SpecModel.

(** ** Games played on [SpecModel] *)

Module Scenario.
Import SpecModel.

(** The confirm key on the main menu, whose first option is "Jugar". *)
Definition start : Env * Event := keydown 0 K_RETURN [13].

(** A game that has just started, for a score manager that loaded
    [records]. *)
Definition playing (records : list HighScore) : Game (C := model) :=
  _handle_events (C := model) [start] (new_game records 0).

(** Ten hard drops in a row pile the pieces up to the spawn rows. *)
Definition ten_drops : list (Env * Event) :=
  repeat (keydown 20 K_SPACE [32]) 10.

Definition game_over (records : list HighScore) : Game (C := model) :=
  _handle_events (C := model) ten_drops (playing records).

(** A ranking that is full, with scores no run of this model beats. *)
Definition full_ranking : list HighScore :=
  repeat {| hs_name := [65; 65; 65]; hs_score := 100;
            hs_level := 1; hs_lines := 0 |} 10.

(** The game one hard drop before its end. *)
Definition before_last_drop (records : list HighScore) : Game (C := model) :=
  _handle_events (C := model) (repeat (keydown 20 K_SPACE [32]) 9)
    (playing records).

(** The first piece, upright and moved to the right wall. *)
Definition at_right_wall : Game (C := model) :=
  _handle_events (C := model)
    (keydown 10 K_UP [] :: repeat (keydown 20 K_RIGHT []) 4) (playing []).

(** The first piece moved to the left wall. *)
Definition at_left_wall : Game (C := model) :=
  _handle_events (C := model) (repeat (keydown 20 K_LEFT []) 3) (playing []).

(** The left key pressed at 1000 ms and held. *)
Definition holding_left : Game (C := model) :=
  _handle_events (C := model) [keydown 1000 K_LEFT []] (playing []).

Definition clock (t : Z) : Env := {| ticks := t; seed := 0 |}.

(** Keys typed at the name entry: "a", "B", "!" (not accepted), backspace,
    "-" and "7". *)
Definition typing : list (Env * Event) :=
  [keydown 30 97 [97]; keydown 31 98 [66]; keydown 32 49 [33];
   keydown 33 K_BACKSPACE [8]; keydown 34 45 [45]; keydown 35 55 [55]].

Definition named : Game (C := model) :=
  _handle_events (C := model) typing (game_over []).

(** Three runs of the main loop: the window is closed in the second frame;
    the process is interrupted in the second frame; a collaborator fails in
    the second frame. *)
Definition closed_window : list Frame :=
  [frame [start] (clock 16) drawn; frame [(clock 20, QUIT)] (clock 32) drawn].

Definition interrupted : list Frame :=
  [frame [start] (clock 16) drawn; body_raises KeyboardInterrupt].

Definition failing : list Frame :=
  [frame [start] (clock 16) drawn; body_raises (Exception 1)].

Definition calm : Shutdown :=
  {| save_raises := None; display_quit_raises := None;
     pygame_quit_raises := None |}.

End Scenario.

(** ** The words of the specification *)

Section Vocabulary.
Context {C : Collaborators}.

(** The effective fall interval as the specification words it:
    max([min_fall_speed] = 5, [initial_fall_speed] = 30 minus (level - 1)),
    divided by 4 while soft drop is held. *)
Definition spec_fall_interval (lvl : Z) (soft_drop : bool) : Z :=
  let interval := Z.max 5 (30 - (lvl - 1)) in
  if soft_drop then interval / 4 else interval.

(** A character the name buffer may hold: alphanumeric, a space, a hyphen
    or an underscore. *)
Definition name_char (c : Z) : Prop :=
  isalnum_char c = true \/ c = 32 \/ c = 45 \/ c = 95.

(** The name buffer holds at most 15 characters, all of them accepted. *)
Definition name_ok (s : Py.str) : Prop :=
  (length s <= 15)%nat /\ Forall name_char s.

(** A method of a piece that moves it and leaves its shape and rotation. *)
Definition moves_only (f : Piece.t -> Piece.t) : Prop :=
  forall p, Piece.shape (f p) = Piece.shape p
            /\ Piece.rotation (f p) = Piece.rotation p.

(** A method of a piece that leaves its shape. *)
Definition keeps_shape (f : Piece.t -> Piece.t) : Prop :=
  forall p, Piece.shape (f p) = Piece.shape p.

(** The outcome of locking the piece [p] on the board [b] with the
    generator [gen], as the specification words it: the game is over when
    [add_piece] fails or when the piece drawn has no valid position;
    otherwise the piece drawn is the current piece and play goes on. *)
Definition locked_and_spawned (p : Piece.t) (b : Board) (gen : PieceGenerator)
  (g' : Game) : Prop :=
  let locked := add_piece b p in
  let drawn := get_next_piece gen in
  (fst locked = false -> state g' = GAME_OVER)
  /\ (fst locked = true ->
      board g' = snd locked
      /\ current_piece g' = fst drawn
      /\ piece_generator g' = snd drawn
      /\ (is_valid_position (snd locked) (fst drawn) = false ->
          state g' = GAME_OVER)
      /\ (is_valid_position (snd locked) (fst drawn) = true ->
          state g' = PLAYING)).

(** The invariant of the controller: the name buffer is well formed and the
    key held for the repeat is not the hard-drop key. *)
Definition controller_inv (g : Game) : Prop :=
  name_ok (player_name g) /\ last_key g <> Some K_SPACE.

End Vocabulary.

(** ** The state machine *)


Section MoreVocabulary.
Context {C : Collaborators}.

(** The attributes [_init_game] sets and nothing changes afterwards, and the
    sign of the fall counter. *)
Definition settings_inv (g : Game) : Prop :=
  key_repeat_delay g = 170 /\ key_repeat_interval g = 50
  /\ fall_speed g = 30 /\ input_active g = false /\ 0 <= fall_counter g.

(** While a game is played or paused, its piece has a valid position. *)
Definition piece_inv (g : Game) : Prop :=
  state g = PLAYING \/ state g = PAUSED ->
  is_valid_position (board g) (current_piece g) = true.

(** Every first piece of a game has a valid position on the new board. *)
Definition first_piece_fits : Prop :=
  forall random_state,
    is_valid_position Board_new
      (fst (get_next_piece (PieceGenerator_new 3 random_state))) = true.

End MoreVocabulary.

(** ** Rendering: [_render] and [_render_game] *)

Module Text.
(** "Nombre: " *)
Definition Nombre : Py.str := [78; 111; 109; 98; 114; 101; 58; 32].
(** "|" *)
Definition cursor : Py.str := [124].
End Text.

Section Rendering.
Context {C : Collaborators}.

(** [get_highscore] of [score.py], which only the rendering reads. *)
Variable get_highscore : ScoreManager -> Z.

(** The calls of [_render] on the user interface and on pygame, with the
    arguments that come from the game.  A rectangle is (left, top, width,
    height); a text is drawn centred at (x, y). *)
Inductive ui_call :=
| draw_main_menu
| draw_background
| draw_board (b : Board)
| draw_piece (p : Piece.t)
| draw_next_pieces (next : list Piece.t)
| draw_score_panel (score lvl lines highscore : Z)
| draw_pause_menu
| draw_game_over (score lvl lines : Z)
| draw_rect (left top w h border : Z)
| draw_text (text : Py.str) (x y : Z)
| draw_rankings
| display_flip.

Definition _render_game (g : Game) : list ui_call :=
  [draw_background;
   draw_board (board g);
   draw_piece (current_piece g);
   draw_next_pieces (peek_next_pieces (piece_generator g));
   draw_score_panel (get_current_score (score_manager g))
     (level (board g)) (lines_cleared (board g))
     (get_highscore (score_manager g))].

(** The text of the name entry: the name, and the cursor during the first
    half of every second. *)
Definition name_text (now : Z) (g : Game) : Py.str :=
  let name_text := Text.Nombre ++ player_name g in
  if now mod 1000 <? 500 then name_text ++ Text.cursor else name_text.

Definition _render (env : Env) (g : Game) : list ui_call :=
  match state g with
  | MENU => [draw_main_menu]
  | PLAYING => _render_game g
  | PAUSED => _render_game g ++ [draw_pause_menu]
  | GAME_OVER =>
      _render_game g
      ++ [draw_game_over (get_current_score (score_manager g))
            (level (board g)) (lines_cleared (board g))]
      ++ (if is_highscore (score_manager g) then
            let window_width := 800 in
            let window_height := 600 in
            [draw_rect (window_width / 4) (window_height / 2 + 100)
               (window_width / 2) 40 0;
             draw_rect (window_width / 4) (window_height / 2 + 100)
               (window_width / 2) 40 2;
             draw_text (name_text (ticks env) g)
               (window_width / 2) (window_height / 2 + 120)]
          else [])
  | RANKINGS => [draw_rankings]
  | SETTINGS => []
  end
  ++ [display_flip].

(** The texts a rendering draws. *)
Definition texts (calls : list ui_call) : list Py.str :=
  flat_map (fun c => match c with draw_text t _ _ => [t] | _ => [] end) calls.

End Rendering.

(** ** The entry point: the block under [if __name__ == "__main__"] *)

Module Main.

(** 'nt', "linux", "darwin" and the names of the video drivers. *)
Definition nt : Py.str := [110; 116].
Definition linux : Py.str := [108; 105; 110; 117; 120].
Definition darwin : Py.str := [100; 97; 114; 119; 105; 110].
Definition windows : Py.str := [119; 105; 110; 100; 111; 119; 115].
Definition wayland : Py.str := [119; 97; 121; 108; 97; 110; 100].
Definition x11 : Py.str := [120; 49; 49].
Definition fbcon : Py.str := [102; 98; 99; 111; 110].
Definition directfb : Py.str := [100; 105; 114; 101; 99; 116; 102; 98].
Definition svgalib : Py.str := [115; 118; 103; 97; 108; 105; 98].
Definition cocoa : Py.str := [99; 111; 99; 111; 97].

(** The drivers to try, by [os.name] and [sys.platform]. *)
Definition drivers_for (os_name sys_platform : Py.str) : list Py.str :=
  if Py.str_eqb os_name nt then [windows]
  else if Py.startswith sys_platform linux
  then [wayland; x11; fbcon; directfb; svgalib]
  else if Py.str_eqb sys_platform darwin then [cocoa]
  else [].

(** What [pygame.display.init()] does under a driver. *)
Inductive DriverInit :=
| initialized
| init_raises (e : exn).

(** The calls of the block that reach outside it, in the order they are
    made: the assignment of [os.environ["SDL_VIDEODRIVER"]], [pygame.init()]
    and the calls on pygame and on the score manager that [run] makes too.
    The calls of the logger, of [print] and of [ctypes] are left out, and so
    are the calls the constructor of [Game] makes. *)
Inductive step :=
| set_video_driver (driver : Py.str)
| pygame_init
| outward (c : call).

(** The calls of one pass of the [for driver in drivers] loop, up to
    [pygame.display.init()], and those of a pass in which it raised
    [pygame.error], which ends with [pygame.display.quit()]. *)
Definition attempt (driver : Py.str) : list step :=
  [set_video_driver driver; outward display_init].

Definition failed_attempt (driver : Py.str) : list step :=
  attempt driver ++ [outward display_quit].

(** How the [for driver in drivers] loop ends: with [driver_set] true for
    a driver, with [driver_set] false, or by an exception that is not a
    [pygame.error]. *)
Inductive Selection :=
| driver_set (driver : Py.str)
| no_driver
| selection_raised (e : exn).

(** The loop, with the calls it makes; [break] ends it at the first driver
    that initializes. *)
Fixpoint select_driver (display_init : Py.str -> DriverInit)
  (drivers : list Py.str) : Selection * list step :=
  match drivers with
  | [] => (no_driver, [])
  | driver :: rest =>
      match display_init driver with
      | initialized => (driver_set driver, attempt driver)
      | init_raises (pygame_error _) =>
          let r := select_driver display_init rest in
          (fst r, failed_attempt driver ++ snd r)
      | init_raises e => (selection_raised e, attempt driver)
      end
  end.

(** How the process ends: with an exit status, or by an exception nothing
    catches that is no [SystemExit]. *)
Inductive ProcessExit :=
| exit_status (n : Z)
| uncaught (e : exn).

(** An exception no clause of the block catches.  [system_exit] tells which
    of the exceptions [BaseException tag] are a [SystemExit], and with what
    status the process then ends ([sys.exit()] gives 0). *)
Definition leaves (system_exit : Z -> option Z) (e : exn) : ProcessExit :=
  match e with
  | BaseException tag =>
      match system_exit tag with
      | Some n => exit_status n
      | None => uncaught e
      end
  | _ => uncaught e
  end.

(** The [except Exception as e] clause of the block, after the calls of
    [trace]: [pygame.quit()], whatever it raises being passed over, and
    [sys.exit(1)]. *)
Definition outer_handler (system_exit : Z -> option Z) (e : exn)
  (trace : list step) : ProcessExit * list step :=
  if isinstance_Exception e
  then (exit_status 1, trace ++ [outward pygame_quit])
  else (leaves system_exit e, trace).

Section WithCollaborators.
Context {C : Collaborators}.

(** What [pygame.init()] and [Game()] do: the game is constructed, from
    the score manager and the user interface [__init__] creates, or an
    exception is raised. *)
Inductive Construction :=
| constructed (sm : ScoreManager) (u : GameUI) (env : Env)
| construction_raises (e : exn).

(** The block: the driver, [pygame.init()], the game, [run].  The result
    is how the process ends, the driver for which [driver_set] became true
    and the calls made; [None] when the script ends with the main loop
    still running. *)
Definition main (os_name sys_platform : Py.str)
  (display_init : Py.str -> DriverInit) (system_exit : Z -> option Z)
  (game : Construction) (script : list Frame) (sd : Shutdown)
  : option (ProcessExit * option Py.str * list step) :=
  let selection :=
    select_driver display_init (drivers_for os_name sys_platform) in
  match fst selection with
  | no_driver =>
      (* sys.exit(1) *)
      Some (exit_status 1, None, snd selection)
  | selection_raised e =>
      let h := outer_handler system_exit e (snd selection) in
      Some (fst h, None, snd h)
  | driver_set d =>
      let trace := snd selection ++ [pygame_init] in
      match game with
      | construction_raises e =>
          let h := outer_handler system_exit e trace in
          Some (fst h, Some d, snd h)
      | constructed sm u env =>
          match run script sd (__init__ sm u env) with
          | None => None
          | Some (returned, calls) =>
              Some (exit_status 0, Some d, trace ++ map outward calls)
          | Some (propagated e, calls) =>
              let h := outer_handler system_exit e
                         (trace ++ map outward calls) in
              Some (fst h, Some d, snd h)
          end
      end
  end.

End WithCollaborators.

End Main.

(** ** More games played on [SpecModel] *)

Module MoreScenarios.
Import SpecModel.

(** The left key, then the right key, then the right key released while the
    left key is still held. *)
Definition left_right_release : list (Env * Event) :=
  [keydown 100 K_LEFT []; keydown 150 K_RIGHT []; keyup 200 K_RIGHT].

(** The pause key, then the confirm key on the pause menu, whose first
    option is "Continuar". *)
Definition pause_and_continue : list (Env * Event) :=
  [keydown 100 K_p [112]; keydown 200 K_RETURN [13]].

(** A name of 15 characters typed at the name entry. *)
Definition full_name : Game (C := model) :=
  _handle_events (C := model) (repeat (keydown 30 97 [97]) 15)
    (Scenario.game_over []).

(** A machine on which only the driver x11 initializes. *)
Definition only_x11 (driver : Py.str) : Main.DriverInit :=
  if Py.str_eqb driver Main.x11 then Main.initialized
  else Main.init_raises (pygame_error false).

(** A machine on which no driver initializes. *)
Definition no_display (driver : Py.str) : Main.DriverInit :=
  Main.init_raises (pygame_error false).

(** A process in which no exception is a [SystemExit]. *)
Definition no_system_exit (tag : Z) : option Z := None.

(** "freebsd13" and "posix" *)
Definition freebsd : Py.str := [102; 114; 101; 101; 98; 115; 100; 49; 51].
Definition posix : Py.str := [112; 111; 115; 105; 120].

(** The score manager whose [save_highscores] fails. *)
Definition failing_save : Shutdown :=
  {| save_raises := Some (Exception 2); display_quit_raises := None;
     pygame_quit_raises := None |}.

(** The shutdown in which [pygame.display.quit()] fails. *)
Definition failing_display_quit : Shutdown :=
  {| save_raises := None; display_quit_raises := Some (pygame_error false);
     pygame_quit_raises := None |}.

End MoreScenarios.

(** ** Theorems *)

Section ControllerFacts.
Context {C : Collaborators}.

(** Writing a piece's own coordinates back leaves the piece as it is. *)
Lemma set_x_same p : Piece.set_x (Piece.x p) p = p.
Proof. destruct p; reflexivity. Qed.

Lemma set_y_same p : Piece.set_y (Piece.y p) p = p.
Proof. destruct p; reflexivity. Qed.

Lemma set_current_piece_same (g : Game) : set_current_piece (current_piece g) g = g.
Proof. destruct g; reflexivity. Qed.

Lemma piece_eq (p q : Piece.t) :
  Piece.shape p = Piece.shape q -> Piece.rotation p = Piece.rotation q ->
  Piece.x p = Piece.x q -> Piece.y p = Piece.y q -> p = q.
Proof. destruct p, q; simpl; intros; subst; reflexivity. Qed.

Lemma GameState_eqb_eq a b : GameState_eqb a b = true <-> a = b.
Proof. destruct a, b; simpl; split; intro H; try reflexivity; discriminate H. Qed.

(** During play [_update] is [_update_game]. *)
Lemma update_playing env (g : Game) :
  state g = PLAYING -> _update env g = _update_game env g.
Proof. intro H. unfold _update. rewrite H. reflexivity. Qed.

(** *** What the key repeat leaves alone *)

Lemma apply_key_movement_frame key (g : Game) :
  let g' := _apply_key_movement key g in
  board g' = board g /\ state g' = state g /\ running g' = running g
  /\ player_name g' = player_name g /\ fall_counter g' = fall_counter g
  /\ soft_drop_active g' = soft_drop_active g
  /\ last_key g' = last_key g /\ last_key_time g' = last_key_time g
  /\ key_repeat_delay g' = key_repeat_delay g
  /\ key_repeat_interval g' = key_repeat_interval g
  /\ piece_generator g' = piece_generator g
  /\ score_manager g' = score_manager g.
Proof.
  unfold _apply_key_movement.
  destruct (negb _); simpl; repeat split; reflexivity.
Qed.

Lemma key_repeat_frame t (g : Game) :
  let g' := key_repeat t g in
  board g' = board g /\ state g' = state g /\ running g' = running g
  /\ player_name g' = player_name g /\ fall_counter g' = fall_counter g
  /\ soft_drop_active g' = soft_drop_active g
  /\ last_key g' = last_key g
  /\ key_repeat_delay g' = key_repeat_delay g
  /\ key_repeat_interval g' = key_repeat_interval g
  /\ piece_generator g' = piece_generator g
  /\ score_manager g' = score_manager g.
Proof.
  unfold key_repeat. destruct (repeat_due t g) as [k|].
  - pose proof (apply_key_movement_frame k g) as H. simpl in H.
    simpl. intuition.
  - simpl. repeat split; reflexivity.
Qed.

Lemma lock_and_spawn_frame p (g : Game) :
  let g' := lock_and_spawn p g in
  running g' = running g /\ player_name g' = player_name g
  /\ fall_counter g' = fall_counter g
  /\ soft_drop_active g' = soft_drop_active g
  /\ last_key g' = last_key g /\ last_key_time g' = last_key_time g
  /\ key_repeat_delay g' = key_repeat_delay g
  /\ key_repeat_interval g' = key_repeat_interval g
  /\ score_manager g' = score_manager g.
Proof.
  unfold lock_and_spawn. simpl.
  destruct (negb (fst _)); simpl; [repeat split; reflexivity|].
  destruct (negb (is_valid_position _ _)); simpl; repeat split; reflexivity.
Qed.

Lemma move_piece_down_frame (g : Game) :
  let g' := _move_piece_down g in
  running g' = running g /\ player_name g' = player_name g
  /\ fall_counter g' = fall_counter g
  /\ soft_drop_active g' = soft_drop_active g
  /\ last_key g' = last_key g /\ last_key_time g' = last_key_time g
  /\ key_repeat_delay g' = key_repeat_delay g
  /\ key_repeat_interval g' = key_repeat_interval g
  /\ score_manager g' = score_manager g.
Proof.
  unfold _move_piece_down.
  destruct (negb (is_valid_position _ _)).
  - apply lock_and_spawn_frame.
  - simpl. repeat split; reflexivity.
Qed.

(** C8: in the states Menu, Paused, GameOver, Rankings and Settings the
    update of a frame changes nothing: the game object is the same after
    it, and with it the board, its level and lines cleared, the current
    piece, the current score, the fall counter and the queue of the
    generator. *)
Theorem update_is_noop_outside_play env (g : Game) :
  state g = MENU \/ state g = PAUSED \/ state g = GAME_OVER
  \/ state g = RANKINGS \/ state g = SETTINGS ->
  let g' := _update env g in
  g' = g
  /\ board g' = board g
  /\ level (board g') = level (board g)
  /\ lines_cleared (board g') = lines_cleared (board g)
  /\ current_piece g' = current_piece g
  /\ get_current_score (score_manager g') = get_current_score (score_manager g)
  /\ fall_counter g' = fall_counter g
  /\ peek_next_pieces (piece_generator g')
     = peek_next_pieces (piece_generator g).
Proof.
  intros H g'.
  assert (E : g' = g).
  { unfold g', _update.
    destruct H as [H|[H|[H|[H|H]]]]; rewrite H; reflexivity. }
  rewrite E. repeat split; reflexivity.
Qed.

(** One frame of play, by the fall counter: the shared form of the
    gravity step. *)
Lemma update_by_counter env (g : Game) :
  state g = PLAYING ->
  let interval := spec_fall_interval (level (board g)) (soft_drop_active g) in
  let counted :=
    set_fall_counter (fall_counter g + 1) (key_repeat (ticks env) g) in
  fall_counter counted = fall_counter g + 1
  /\ (fall_counter g + 1 < interval -> _update env g = counted)
  /\ (fall_counter g + 1 >= interval ->
      _update env g = set_fall_counter 0 (_move_piece_down counted)
      /\ fall_counter (_update env g) = 0
      /\ (is_valid_position (board counted) (move_down (current_piece counted))
          = true ->
          current_piece (_update env g) = move_down (current_piece counted))).
Proof.
  intros Hs interval counted.
  rewrite (update_playing env g Hs).
  pose proof (key_repeat_frame (ticks env) g) as F. simpl in F.
  destruct F as (Fb & _ & _ & _ & Fc & Fs & _).
  assert (E : interval
              = (if soft_drop_active (key_repeat (ticks env) g)
                 then Z.max 5 (30 - (level (board (key_repeat (ticks env) g)) - 1) * 1) / 4
                 else Z.max 5 (30 - (level (board (key_repeat (ticks env) g)) - 1) * 1))).
  { unfold interval, spec_fall_interval. rewrite Fb, Fs, Z.mul_1_r. reflexivity. }
  assert (Ec : fall_counter counted = fall_counter g + 1).
  { unfold counted, set_fall_counter. cbn [fall_counter]. reflexivity. }
  split; [exact Ec|].
  unfold _update_game. cbv zeta.
  rewrite Fc. fold counted. rewrite <- E. rewrite Ec.
  split; intro H.
  - destruct (Z.geb_spec (fall_counter g + 1) interval); [lia|reflexivity].
  - destruct (Z.geb_spec (fall_counter g + 1) interval); [|lia].
    split; [reflexivity|]. split; [reflexivity|].
    intro Hv. simpl. unfold _move_piece_down. rewrite Hv. reflexivity.
Qed.

(** C3: during play a frame adds exactly 1 to the fall counter; the interval
    it is compared with is max(5, 30 - (level - 1)), divided by 4 while soft
    drop is held; when the counter reaches the interval the piece tries to
    move down one row ([_move_piece_down], which moves it when the row below
    is free) and the counter is 0 afterwards in either case; when it does
    not, the counter keeps the value plus 1 and nothing falls. *)
Theorem gravity_step env (g : Game) :
  state g = PLAYING ->
  let interval := spec_fall_interval (level (board g)) (soft_drop_active g) in
  let counted :=
    set_fall_counter (fall_counter g + 1) (key_repeat (ticks env) g) in
  fall_counter counted = fall_counter g + 1
  /\ (fall_counter g + 1 < interval -> _update env g = counted)
  /\ (fall_counter g + 1 >= interval ->
      _update env g = set_fall_counter 0 (_move_piece_down counted)
      /\ fall_counter (_update env g) = 0
      /\ (is_valid_position (board counted) (move_down (current_piece counted))
          = true ->
          current_piece (_update env g) = move_down (current_piece counted))).
Proof. exact (update_by_counter env g). Qed.

(** *** Locking a piece *)

Lemma lock_and_spawn_spec p (g : Game) :
  state g = PLAYING ->
  locked_and_spawned p (board g) (piece_generator g) (lock_and_spawn p g).
Proof.
  intro Hs. unfold locked_and_spawned, lock_and_spawn. cbv zeta.
  cbn [board piece_generator current_piece set_board set_current_piece
       set_piece_generator].
  destruct (add_piece (board g) p) as [ok b'] eqn:Ea. cbn [fst snd].
  destruct ok; cbn [negb].
  - split; [discriminate|]. intros _.
    destruct (get_next_piece (piece_generator g)) as [q gen'] eqn:Eg.
    cbn [fst snd].
    destruct (is_valid_position b' q) eqn:Ev; cbn [negb]; simpl;
      repeat split; try reflexivity; try discriminate; intros; assumption.
  - split; [intros _; reflexivity|discriminate].
Qed.

(** C1: a lock during play is one step of the controller.  When gravity
    finds the row below the piece blocked, the same [_update] locks the
    piece, draws the next one and checks its place; when the hard-drop key
    is pressed, the handling of that one event drops the piece, locks it,
    draws the next one and checks its place.  In both, the state is
    GameOver at the end of the step when [add_piece] reports failure or the
    piece drawn has no valid position, and otherwise the piece drawn is the
    current piece and the state is still Playing. *)
Theorem lock_is_one_step env (g : Game) :
  state g = PLAYING ->
  (let counted :=
     set_fall_counter (fall_counter g + 1) (key_repeat (ticks env) g) in
   let p := current_piece counted in
   fall_counter g + 1
   >= spec_fall_interval (level (board g)) (soft_drop_active g) ->
   is_valid_position (board g) (move_down p) = false ->
   locked_and_spawned (Piece.set_y (Piece.y p) (move_down p))
     (board g) (piece_generator g) (_update env g))
  /\ (forall unicode,
      locked_and_spawned (snd (hard_drop (board g) (current_piece g)))
        (board g) (piece_generator g)
        (_handle_events [(env, KEYDOWN K_SPACE unicode)] g)).
Proof.
  intro Hs. split.
  - intros counted p Hc Hv.
    destruct (update_by_counter env g Hs) as (_ & _ & Hr).
    destruct (Hr Hc) as (Hu & _). clear Hr. fold counted in Hu.
    pose proof (key_repeat_frame (ticks env) g) as F. cbv zeta in F.
    destruct F as (Fb & Fst & _ & _ & _ & _ & _ & _ & _ & Fg & _).
    assert (Hb : board counted = board g) by (unfold counted; simpl; exact Fb).
    assert (Hg : piece_generator counted = piece_generator g)
      by (unfold counted; simpl; exact Fg).
    assert (Hst : state counted = PLAYING)
      by (unfold counted; simpl; rewrite Fst; exact Hs).
    pose proof (lock_and_spawn_spec (Piece.set_y (Piece.y p) (move_down p))
                  counted Hst) as L.
    rewrite Hb, Hg in L.
    rewrite Hu. unfold _move_piece_down. fold p. rewrite Hb, Hv. cbn [negb].
    unfold locked_and_spawned in *. cbv zeta in *.
    cbn [state board current_piece piece_generator set_fall_counter].
    exact L.
  - intro unicode. cbn [_handle_events]. unfold dispatch. rewrite Hs.
    unfold _handle_game_events. cbv zeta.
    change (K_SPACE =? K_p) with false.
    change (K_SPACE =? K_ESCAPE) with false.
    change (K_SPACE =? K_SPACE) with true. cbv iota.
    unfold _perform_hard_drop. apply lock_and_spawn_spec. exact Hs.
Qed.

(** *** Tentative moves *)

(** C2: a left move, a right move or a rotation whose result is not a valid
    position gives the piece back its x and y, and for a rotation its
    rotation index, as they were before the attempt; when the moves of a
    piece change nothing but its position and a rotation leaves its shape,
    the game object, and with it the piece, is unchanged by the attempt. *)
Theorem invalid_move_is_reverted key (g : Game) :
  key = K_LEFT \/ key = K_RIGHT \/ key = K_UP ->
  is_valid_position (board g) (moved key (current_piece g)) = false ->
  let p' := current_piece (_apply_key_movement key g) in
  Piece.x p' = Piece.x (current_piece g)
  /\ Piece.y p' = Piece.y (current_piece g)
  /\ (key = K_UP -> Piece.rotation p' = Piece.rotation (current_piece g))
  /\ (moves_only move_left -> moves_only move_right -> keeps_shape rotate ->
      _apply_key_movement key g = g).
Proof.
  intros Hk Hv. unfold _apply_key_movement. cbv zeta. rewrite Hv. cbn [negb].
  cbn [current_piece set_current_piece].
  assert (X : forall q, Piece.x
      (if key =? K_UP
       then Piece.set_rotation (Piece.rotation (current_piece g))
              (Piece.set_y (Piece.y (current_piece g))
                 (Piece.set_x (Piece.x (current_piece g)) q))
       else Piece.set_y (Piece.y (current_piece g))
              (Piece.set_x (Piece.x (current_piece g)) q))
      = Piece.x (current_piece g)) by (intro q; destruct (key =? K_UP); reflexivity).
  assert (Y : forall q, Piece.y
      (if key =? K_UP
       then Piece.set_rotation (Piece.rotation (current_piece g))
              (Piece.set_y (Piece.y (current_piece g))
                 (Piece.set_x (Piece.x (current_piece g)) q))
       else Piece.set_y (Piece.y (current_piece g))
              (Piece.set_x (Piece.x (current_piece g)) q))
      = Piece.y (current_piece g)) by (intro q; destruct (key =? K_UP); reflexivity).
  split; [apply X|]. split; [apply Y|]. split.
  - intro E. rewrite E. reflexivity.
  - intros Hl Hr Hrot.
    transitivity (set_current_piece (current_piece g) g);
      [f_equal|apply set_current_piece_same].
    apply piece_eq; [| |apply X|apply Y].
    + destruct Hk as [E|[E|E]]; rewrite E; unfold moved; simpl;
        [apply Hl|apply Hr|apply Hrot].
    + destruct Hk as [E|[E|E]]; rewrite E; unfold moved; simpl;
        [apply Hl|apply Hr|reflexivity].
Qed.

(** *** What each handler does to the held key and to the name buffer *)

Lemma init_game_frame env (g : Game) :
  player_name (_init_game env g) = player_name g
  /\ last_key (_init_game env g) = None
  /\ running (_init_game env g) = running g.
Proof. repeat split; reflexivity. Qed.

Lemma handle_menu_events_frame env e (g : Game) :
  let g' := _handle_menu_events env e g in
  player_name g' = player_name g
  /\ (last_key g' = last_key g \/ last_key g' = None).
Proof.
  unfold _handle_menu_events. cbv zeta.
  destruct (fst (handle_menu_input _ _ _)) as [action|];
    [|simpl; auto].
  repeat match goal with
         | |- context [if ?b then _ else _] => destruct b
         end; simpl; auto.
Qed.

Lemma handle_pause_events_frame env e (g : Game) :
  let g' := _handle_pause_events env e g in
  player_name g' = player_name g
  /\ (last_key g' = last_key g \/ last_key g' = None).
Proof.
  unfold _handle_pause_events. cbv zeta.
  destruct (fst (handle_menu_input _ _ _)) as [action|];
    [|simpl; auto].
  repeat match goal with
         | |- context [if ?b then _ else _] => destruct b
         end; simpl; auto.
Qed.

Lemma perform_hard_drop_frame (g : Game) :
  let g' := _perform_hard_drop g in
  player_name g' = player_name g
  /\ last_key g' = last_key g /\ last_key_time g' = last_key_time g.
Proof.
  unfold _perform_hard_drop. cbv zeta.
  pose proof (lock_and_spawn_frame (snd (hard_drop (board g) (current_piece g))) g) as F.
  cbv zeta in F. intuition.
Qed.

Lemma handle_game_events_frame env e (g : Game) :
  let g' := _handle_game_events env e g in
  player_name g' = player_name g
  /\ (last_key g' = last_key g \/ last_key g' = None
      \/ exists key, last_key g' = Some key /\ key <> K_SPACE).
Proof.
  unfold _handle_game_events. cbv zeta.
  destruct e as [|key u|key|ty]; [simpl; auto| | |simpl; auto].
  - destruct (key =? K_p); [simpl; auto|].
    destruct (key =? K_ESCAPE); [simpl; auto|].
    destruct (Z.eqb_spec key K_SPACE) as [E|N].
    + pose proof (perform_hard_drop_frame g) as F. cbv zeta in F.
      intuition.
    + match goal with
      | |- context [_apply_key_movement key ?h] =>
          pose proof (apply_key_movement_frame key h) as F
      end.
      cbv zeta in F.
      destruct F as (_ & _ & _ & Fn & _ & _ & Fk & _).
      rewrite Fn, Fk. split.
      * destruct (key =? K_DOWN); reflexivity.
      * right; right. exists key. split; [reflexivity|exact N].
  - assert (Hn : player_name
                   (if key =? K_DOWN then set_soft_drop_active false g else g)
                 = player_name g) by (destruct (key =? K_DOWN); reflexivity).
    assert (Hk : last_key
                   (if key =? K_DOWN then set_soft_drop_active false g else g)
                 = last_key g) by (destruct (key =? K_DOWN); reflexivity).
    rewrite Hk. destruct (last_key g) as [k|] eqn:El.
    + destruct (key =? k).
      * simpl. rewrite Hn. auto.
      * rewrite Hn, Hk. auto.
    + rewrite Hn, Hk. auto.
Qed.

Lemma removelast_length {A} (l : list A) :
  (length (removelast l) <= length l)%nat.
Proof.
  induction l as [|a [|b l'] IH]; simpl in *; lia.
Qed.

Lemma removelast_Forall {A} (P : A -> Prop) (l : list A) :
  Forall P l -> Forall P (removelast l).
Proof.
  induction 1 as [|a l Ha Hl IH]; [constructor|].
  destruct l as [|b l']; [constructor|].
  change (removelast (a :: b :: l')) with (a :: removelast (b :: l')).
  constructor; assumption.
Qed.

(** A well-formed key event that the name entry accepts brings at most one
    character, of the accepted set. *)
Lemma accepted_chars unicode :
  (length unicode <= 1)%nat -> accepted unicode = true ->
  Forall name_char unicode.
Proof.
  destruct unicode as [|c [|d rest]]; simpl; intros Hl Ha;
    [constructor| |lia].
  constructor; [|constructor]. unfold name_char.
  unfold accepted, Py.isalnum, Lit.space_hyphen_underscore in Ha.
  cbn [Py.contains Py.startswith Py.truthy forallb] in Ha.
  destruct (isalnum_char c); [left; reflexivity|right].
  destruct (Z.eqb_spec 32 c); [lia|].
  destruct (Z.eqb_spec 45 c); [lia|].
  destruct (Z.eqb_spec 95 c); [lia|].
  discriminate Ha.
Qed.

Lemma handle_game_over_events_frame e (g : Game) :
  well_formed e -> name_ok (player_name g) ->
  let g' := _handle_game_over_events e g in
  name_ok (player_name g') /\ last_key g' = last_key g.
Proof.
  intros Hw [Hlen Hall]. unfold _handle_game_over_events. cbv zeta.
  destruct (is_highscore (score_manager g));
    [|split; [split; assumption|reflexivity]].
  destruct e as [|key u|key|ty];
    try (split; [split; assumption|reflexivity]).
  destruct (key =? K_RETURN).
  { simpl. split; [split; [simpl; lia|constructor]|reflexivity]. }
  destruct (key =? K_BACKSPACE).
  { simpl. split; [|reflexivity]. split.
    - pose proof (removelast_length (player_name g)). unfold Py.drop_last. lia.
    - apply removelast_Forall. exact Hall. }
  destruct (Z.ltb_spec (Z.of_nat (length (player_name g))) 15) as [Hlt|Hge];
    [|split; [split; assumption|reflexivity]].
  destruct (accepted u) eqn:Ha; [|split; [split; assumption|reflexivity]].
  simpl in Hw. simpl. split; [|reflexivity]. split.
  - rewrite length_app. lia.
  - apply Forall_app. split; [exact Hall|].
    apply accepted_chars; assumption.
Qed.

Lemma update_game_frame env (g : Game) :
  let g' := _update_game env g in
  player_name g' = player_name g /\ last_key g' = last_key g
  /\ running g' = running g.
Proof.
  unfold _update_game. cbv zeta.
  pose proof (key_repeat_frame (ticks env) g) as F. cbv zeta in F.
  destruct F as (_ & _ & Fr & Fn & _ & _ & Fk & _).
  match goal with
  | |- context [if ?b then _ else _] => destruct b
  end.
  - match goal with
    | |- context [_move_piece_down ?h] =>
        pose proof (move_piece_down_frame h) as M
    end.
    cbv zeta in M. destruct M as (Mr & Mn & _ & _ & Mk & _).
    simpl. rewrite Mn, Mk, Mr. simpl. auto.
  - simpl. auto.
Qed.

Lemma update_frame env (g : Game) :
  player_name (_update env g) = player_name g
  /\ last_key (_update env g) = last_key g
  /\ running (_update env g) = running g.
Proof.
  unfold _update. destruct (GameState_eqb (state g) PLAYING).
  - apply update_game_frame.
  - auto.
Qed.

Lemma dispatch_inv env e (g : Game) :
  well_formed e -> controller_inv g -> controller_inv (dispatch env e g).
Proof.
  intros Hw [Hn Hk]. unfold dispatch, controller_inv.
  destruct (state g).
  - pose proof (handle_menu_events_frame env e g) as F. cbv zeta in F.
    destruct F as (Fn & [Fk|Fk]); rewrite Fn, Fk; split; auto; discriminate.
  - pose proof (handle_game_events_frame env e g) as F. cbv zeta in F.
    destruct F as (Fn & [Fk|[Fk|(key & Fk & Hne)]]); rewrite Fn, Fk;
      split; auto; try discriminate.
    intro E. injection E as E. contradiction.
  - pose proof (handle_pause_events_frame env e g) as F. cbv zeta in F.
    destruct F as (Fn & [Fk|Fk]); rewrite Fn, Fk; split; auto; discriminate.
  - pose proof (handle_game_over_events_frame e g Hw Hn) as F. cbv zeta in F.
    destruct F as (Fn & Fk). rewrite Fk. split; assumption.
  - unfold _handle_rankings_events. destruct e as [|key u|key|ty]; auto.
    destruct (key =? K_ESCAPE); simpl; auto.
  - simpl. auto.
Qed.

Lemma handle_events_inv events : forall (g : Game),
  Forall (fun ee => well_formed (snd ee)) events ->
  controller_inv g -> controller_inv (_handle_events events g).
Proof.
  induction events as [|[env e] rest IH]; intros g Hw Hi; [exact Hi|].
  inversion Hw as [|? ? He Hrest]; subst. simpl in He.
  destruct e as [|key u|key|ty]; simpl.
  - exact Hi.
  - apply IH; [exact Hrest|]. apply (dispatch_inv env (KEYDOWN key u)); assumption.
  - apply IH; [exact Hrest|]. apply (dispatch_inv env (KEYUP key)); assumption.
  - apply IH; [exact Hrest|]. apply (dispatch_inv env (OTHER ty)); assumption.
Qed.

Lemma reachable_inv (g : Game) : reachable g -> controller_inv g.
Proof.
  induction 1 as [sm u env|g events Hr IH Hw|g env Hr IH].
  - split; [split; [simpl; lia|constructor]|discriminate].
  - apply handle_events_inv; assumption.
  - destruct IH as [Hn Hk].
    destruct (update_frame env g) as (Fn & Fk & _).
    unfold controller_inv. rewrite Fn, Fk. split; assumption.
Qed.

(** *** The name buffer *)

(** C6: in every state the controller reaches the name buffer holds at most
    15 characters, each alphanumeric, a space, a hyphen or an underscore.
    During the name entry of a qualifying game over, a key other than
    confirm and backspace appends its text exactly when the buffer is below
    15 characters and the text is accepted, a well-formed accepted text
    being at most one character of the accepted set, and backspace removes
    the last character. *)
Theorem player_name_is_well_formed (g : Game) :
  reachable g ->
  name_ok (player_name g)
  /\ (is_highscore (score_manager g) = true ->
      (forall key unicode,
          key <> K_RETURN -> key <> K_BACKSPACE ->
          player_name (_handle_game_over_events (KEYDOWN key unicode) g)
          = if (Z.of_nat (length (player_name g)) <? 15) && accepted unicode
            then player_name g ++ unicode
            else player_name g)
      /\ (forall unicode,
             player_name
               (_handle_game_over_events (KEYDOWN K_BACKSPACE unicode) g)
             = removelast (player_name g)))
  /\ (forall key unicode,
         well_formed (KEYDOWN key unicode) -> accepted unicode = true ->
         (length unicode <= 1)%nat /\ Forall name_char unicode).
Proof.
  intro Hr. split; [apply reachable_inv; exact Hr|]. split.
  - intro Hq. unfold _handle_game_over_events. rewrite Hq. split.
    + intros key unicode Hn1 Hn2.
      destruct (Z.eqb_spec key K_RETURN); [contradiction|].
      destruct (Z.eqb_spec key K_BACKSPACE); [contradiction|].
      destruct (Z.of_nat (length (player_name g)) <? 15); [|reflexivity].
      destruct (accepted unicode); reflexivity.
    + intro unicode. reflexivity.
  - intros key unicode Hw Ha. simpl in Hw. split; [exact Hw|].
    apply accepted_chars; assumption.
Qed.

(** *** The confirm key at game over *)

Lemma confirm_records_highscore env (g : Game) unicode :
  state g = GAME_OVER -> is_highscore (score_manager g) = true ->
  let g' := _handle_events [(env, KEYDOWN K_RETURN unicode)] g in
  state g' = MENU /\ player_name g' = []
  /\ score_manager g'
     = add_highscore (score_manager g)
         (if Py.truthy (player_name g) then player_name g else Lit.Anonimo)
         (level (board g)) (lines_cleared (board g)).
Proof.
  intros Hs Hq. cbn [_handle_events]. unfold dispatch. rewrite Hs.
  unfold _handle_game_over_events. rewrite Hq.
  change (K_RETURN =? K_RETURN) with true. cbv iota zeta.
  repeat split; reflexivity.
Qed.

(** C9: the confirm key at a qualifying game over with an empty name buffer
    passes the name "Anonimo" (with o acute), which is not the empty name,
    to [add_highscore], with the level and the lines cleared of the
    board. *)
Theorem empty_name_is_recorded_as_Anonimo env (g : Game) unicode :
  state g = GAME_OVER -> is_highscore (score_manager g) = true ->
  player_name g = [] ->
  let g' := _handle_events [(env, KEYDOWN K_RETURN unicode)] g in
  score_manager g'
  = add_highscore (score_manager g) Lit.Anonimo
      (level (board g)) (lines_cleared (board g))
  /\ Lit.Anonimo <> [].
Proof.
  intros Hs Hq Hn g'.
  destruct (confirm_records_highscore env g unicode Hs Hq) as (_ & _ & E).
  rewrite Hn in E. split; [exact E|discriminate].
Qed.

(** C5, where the controller departs from it: at a game over whose score
    does not qualify, no event but the closing of the window changes the
    game; the confirm key among them leaves the state GameOver. *)
Theorem game_over_without_highscore_is_stuck events : forall (g : Game),
  state g = GAME_OVER -> is_highscore (score_manager g) = false ->
  Forall (fun ee => snd ee <> QUIT) events ->
  _handle_events events g = g.
Proof.
  induction events as [|[env e] rest IH]; intros g Hs Hq Hn; [reflexivity|].
  inversion Hn as [|? ? He Hrest]; subst. simpl in He.
  assert (D : dispatch env e g = g).
  { unfold dispatch. rewrite Hs. unfold _handle_game_over_events.
    rewrite Hq. reflexivity. }
  destruct e as [|key u|key|ty]; [contradiction| | |];
    cbn [_handle_events]; rewrite D; apply IH; assumption.
Qed.

(** *** The hard-drop key *)

Lemma handle_hard_drop_key env (g : Game) unicode :
  state g = PLAYING ->
  _handle_events [(env, KEYDOWN K_SPACE unicode)] g = _perform_hard_drop g.
Proof.
  intro Hs. cbn [_handle_events]. unfold dispatch. rewrite Hs. reflexivity.
Qed.

(** The movement of the hard-drop key is no movement. *)
Lemma apply_key_movement_hard_drop_key (g : Game) :
  _apply_key_movement K_SPACE g = g.
Proof.
  unfold _apply_key_movement. cbv zeta.
  change (moved K_SPACE (current_piece g)) with (current_piece g).
  change (K_SPACE =? K_UP) with false. cbv iota.
  rewrite set_x_same, set_y_same.
  destruct (negb _); apply set_current_piece_same.
Qed.

(** What one hard drop does: the piece is dropped by [hard_drop] and locked
    by one [add_piece]; when that fails the game is over with the dropped
    piece current and the generator untouched; otherwise one piece is drawn
    and is current, and the game is over when it has no valid position. *)
Lemma perform_hard_drop_effect (g : Game) :
  let g' := _perform_hard_drop g in
  let dropped := snd (hard_drop (board g) (current_piece g)) in
  let locked := add_piece (board g) dropped in
  let drawn := get_next_piece (piece_generator g) in
  board g' = snd locked
  /\ (fst locked = false ->
      state g' = GAME_OVER /\ current_piece g' = dropped
      /\ piece_generator g' = piece_generator g)
  /\ (fst locked = true ->
      current_piece g' = fst drawn /\ piece_generator g' = snd drawn
      /\ state g' = if is_valid_position (snd locked) (fst drawn)
                    then state g else GAME_OVER).
Proof.
  unfold _perform_hard_drop, lock_and_spawn. cbv zeta.
  cbn [board piece_generator current_piece set_board set_current_piece
       set_piece_generator].
  destruct (add_piece (board g)
              (snd (hard_drop (board g) (current_piece g)))) as [ok b'].
  cbn [fst snd]. destruct ok; cbn [negb].
  - destruct (get_next_piece (piece_generator g)) as [q gen']. cbn [fst snd].
    destruct (is_valid_position b' q); cbn [negb]; simpl;
      repeat split; try reflexivity; discriminate.
  - simpl. repeat split; try reflexivity; discriminate.
Qed.

(** C10: the event of the hard-drop key performs exactly one hard drop: the
    piece dropped by [hard_drop] is locked by one [add_piece], whose board
    is the board afterwards, and, unless the lock fails and ends the game,
    exactly one piece is drawn from the generator and becomes the current
    piece (the game being over when it has no valid position).  The event
    returns with [last_key] and [last_key_time] as they were; the key held
    for the repeat is never the hard-drop key, in no state the controller
    reaches, so the repeat is never due for it; and the key repeat only
    ever tries the movement of the held key, which leaves the board, the
    generator and the state as they are: it drops and locks nothing. *)
Theorem hard_drop_is_not_repeated env (g : Game) unicode :
  reachable g -> state g = PLAYING ->
  let g' := _handle_events [(env, KEYDOWN K_SPACE unicode)] g in
  let dropped := snd (hard_drop (board g) (current_piece g)) in
  let locked := add_piece (board g) dropped in
  let drawn := get_next_piece (piece_generator g) in
  (board g' = snd locked
   /\ (fst locked = false ->
       state g' = GAME_OVER /\ current_piece g' = dropped
       /\ piece_generator g' = piece_generator g)
   /\ (fst locked = true ->
       current_piece g' = fst drawn /\ piece_generator g' = snd drawn
       /\ state g' = if is_valid_position (snd locked) (fst drawn)
                     then PLAYING else GAME_OVER))
  /\ g' = _perform_hard_drop g
  /\ last_key g' = last_key g
  /\ last_key_time g' = last_key_time g
  /\ (forall g2 : Game, reachable g2 ->
      last_key g2 <> Some K_SPACE
      /\ forall t, repeat_due t g2 <> Some K_SPACE)
  /\ (forall (g2 : Game) t,
         board (key_repeat t g2) = board g2
         /\ piece_generator (key_repeat t g2) = piece_generator g2
         /\ state (key_repeat t g2) = state g2).
Proof.
  intros Hr Hs g' dropped locked drawn.
  unfold g'. rewrite (handle_hard_drop_key env g unicode Hs).
  pose proof (perform_hard_drop_frame g) as F. cbv zeta in F.
  destruct F as (_ & Fk & Ft).
  split.
  { pose proof (perform_hard_drop_effect g) as E. cbv zeta in E.
    rewrite Hs in E. exact E. }
  split; [reflexivity|]. split; [exact Fk|]. split; [exact Ft|]. split.
  - intros g2 H2. destruct (reachable_inv g2 H2) as [_ Hk].
    split; [exact Hk|]. intros t E. unfold repeat_due in E.
    destruct (last_key g2) as [k|]; [|discriminate].
    destruct (negb (k =? 0) && _); [|discriminate].
    apply Hk. exact E.
  - intros g2 t. pose proof (key_repeat_frame t g2) as F. cbv zeta in F.
    intuition.
Qed.

(** *** The key repeat *)

(** The key-down of a movement key applies the movement once, at once, and
    records the key and the time. *)
Lemma keydown_applies_movement env (g : Game) key unicode :
  state g = PLAYING ->
  key = K_LEFT \/ key = K_RIGHT \/ key = K_UP ->
  _handle_events [(env, KEYDOWN key unicode)] g
  = _apply_key_movement key
      (set_last_key_time (ticks env) (set_last_key (Some key) g)).
Proof.
  intros Hs Hk. cbn [_handle_events]. unfold dispatch. rewrite Hs.
  destruct Hk as [E|[E|E]]; rewrite E; reflexivity.
Qed.

(** No repeat is due until more than [key_repeat_delay] has passed since
    the time recorded. *)
Lemma no_repeat_within_delay t (g : Game) :
  t - last_key_time g <= key_repeat_delay g -> repeat_due t g = None.
Proof.
  intro H. unfold repeat_due. destruct (last_key g) as [k|]; [|reflexivity].
  destruct (Z.gtb_spec (t - last_key_time g) (key_repeat_delay g)); [lia|].
  rewrite andb_false_r. reflexivity.
Qed.

(** C4, where the controller departs from it: with the delay of 170 ms and
    the interval of 50 ms, a frame in which the repeat fires sets
    [last_key_time] 120 ms ahead of the clock, so that no repeat is due in
    any frame up to 290 ms later, whereas the claim has the movement
    reapplied every 50 ms. *)
Theorem repeat_fires_every_290ms env (g : Game) t' :
  state g = PLAYING ->
  key_repeat_delay g = 170 -> key_repeat_interval g = 50 ->
  repeat_due (ticks env) g <> None ->
  t' <= ticks env + 290 ->
  last_key_time (_update env g) = ticks env + 120
  /\ repeat_due t' (_update env g) = None.
Proof.
  intros Hs Hd Hi Hdue Ht.
  assert (T : last_key_time (_update env g) = ticks env + 120).
  { rewrite (update_playing env g Hs). unfold _update_game. cbv zeta.
    assert (K : last_key_time (key_repeat (ticks env) g) = ticks env + 120).
    { unfold key_repeat. destruct (repeat_due (ticks env) g) as [k|];
        [|contradiction]. simpl. lia. }
    match goal with
    | |- context [if ?b then _ else _] => destruct b
    end.
    - match goal with
      | |- context [_move_piece_down ?h] =>
          pose proof (move_piece_down_frame h) as M
      end.
      cbv zeta in M. destruct M as (_ & _ & _ & _ & _ & Mt & _).
      simpl. rewrite Mt. simpl. exact K.
    - simpl. exact K. }
  split; [exact T|].
  apply no_repeat_within_delay. rewrite T.
  assert (D : key_repeat_delay (_update env g) = 170).
  { rewrite (update_playing env g Hs). unfold _update_game. cbv zeta.
    pose proof (key_repeat_frame (ticks env) g) as F. cbv zeta in F.
    destruct F as (_ & _ & _ & _ & _ & _ & _ & Fd & _).
    match goal with
    | |- context [if ?b then _ else _] => destruct b
    end.
    - match goal with
      | |- context [_move_piece_down ?h] =>
          pose proof (move_piece_down_frame h) as M
      end.
      cbv zeta in M. destruct M as (_ & _ & _ & _ & _ & _ & Md & _).
      simpl. rewrite Md. simpl. rewrite Fd. exact Hd.
    - simpl. rewrite Fd. exact Hd. }
  rewrite D. lia.
Qed.

(** *** The main loop *)

Lemma count_app c (a b : list call) :
  count c (a ++ b) = (count c a + count c b)%nat.
Proof. unfold count. rewrite filter_app, length_app. reflexivity. Qed.

(** The loop itself never saves the highscores. *)
Lemma main_loop_never_saves script : forall (g : Game) x trace,
  main_loop script g = Some (x, trace) -> count save_highscores trace = 0%nat.
Proof.
  induction script as [|f rest IH]; intros g x trace H; simpl in H.
  - destruct (running g); [discriminate|]. injection H as _ E. subst.
    reflexivity.
  - destruct (running g);
      [|injection H as _ E; subst; reflexivity].
    destruct f as [e|events env r];
      [injection H as _ E; subst; reflexivity|].
    destruct r as [|e r]; [exact (IH _ _ _ H)|].
    destruct e as [|tag|video|tag];
      try (injection H as _ E; subst; reflexivity).
    destruct video; [|exact (IH _ _ _ H)].
    destruct r; try (injection H as _ E; subst; reflexivity).
    destruct (main_loop rest _) as [[x' trace']|] eqn:Em; [|discriminate].
    injection H as _ E. subst. exact (IH _ _ _ Em).
Qed.

Lemma clean_up_never_saves sd pending :
  count save_highscores (snd (clean_up sd pending)) = 0%nat.
Proof.
  unfold clean_up. destruct (display_quit_raises sd); [reflexivity|].
  destruct (pygame_quit_raises sd); reflexivity.
Qed.

(** [run] is left whenever its loop is. *)
Lemma run_exits script sd (g : Game) :
  main_loop script g <> None -> run script sd g <> None.
Proof.
  intro H. unfold run. destruct (main_loop script g) as [[x trace]|];
    [|contradiction].
  destruct (save_raises sd); discriminate.
Qed.

(** The loop is left by an exception in its body, and by the iteration
    after a [QUIT] event. *)
Lemma main_loop_exits_on_exception e rest (g : Game) :
  main_loop (body_raises e :: rest) g <> None.
Proof. simpl. destruct (running g); discriminate. Qed.

Lemma main_loop_exits_on_quit env events env' rest (g : Game) :
  main_loop (frame ((env, QUIT) :: events) env' drawn :: rest) g <> None.
Proof.
  simpl. destruct (running g); [|discriminate].
  destruct (update_frame env' (set_running false g)) as (_ & _ & R).
  destruct rest as [|f rest']; simpl; rewrite R; discriminate.
Qed.

(** C7: however [run] is left, by the [running] flag, by a
    [KeyboardInterrupt] or by another exception, its trace of calls holds
    [save_highscores] exactly once: the loop makes no such call, the
    [finally] clause makes it first, and the clean-up after it makes none. *)
Theorem run_saves_highscores_once script sd (g : Game) exit trace :
  run script sd g = Some (exit, trace) ->
  count save_highscores trace = 1%nat
  /\ exists before after,
      trace = before ++ save_highscores :: after
      /\ count save_highscores before = 0%nat
      /\ count save_highscores after = 0%nat.
Proof.
  intro H. unfold run in H.
  destruct (main_loop script g) as [[x tr]|] eqn:Em; [|discriminate].
  pose proof (main_loop_never_saves script g x tr Em) as L.
  assert (X : exists after,
             trace = tr ++ save_highscores :: after
             /\ count save_highscores after = 0%nat).
  { destruct (save_raises sd).
    - injection H as _ E. subst. exists []. split; reflexivity.
    - injection H as _ E. subst. eexists. split; [reflexivity|].
      apply clean_up_never_saves. }
  destruct X as (after & E & A). split.
  - rewrite E, count_app, L.
    change (save_highscores :: after) with ([save_highscores] ++ after).
    rewrite count_app, A. reflexivity.
  - exists tr, after. auto.
Qed.

End ControllerFacts.

(** ** The theorems at work on [SpecModel] *)

Section OnSpecModel.
#[local] Existing Instance SpecModel.model.

(** C8 on the game that has ended: an update leaves it as it is. *)
Lemma update_is_noop_outside_play_witness :
  state (Scenario.game_over []) = GAME_OVER
  /\ _update (Scenario.clock 500) (Scenario.game_over [])
     = Scenario.game_over [].
Proof.
  assert (H : state (Scenario.game_over []) = GAME_OVER)
    by (vm_compute; reflexivity).
  split; [exact H|].
  exact (proj1 (update_is_noop_outside_play (Scenario.clock 500)
                  (Scenario.game_over [])
                  (or_intror (or_intror (or_introl H))))).
Defined.

(** C3 on the game that has just started: the first frame counts 1 and the
    piece stays in its row. *)
Lemma gravity_step_witness :
  state (Scenario.playing []) = PLAYING
  /\ fall_counter (_update (Scenario.clock 16) (Scenario.playing [])) = 1
  /\ Piece.y (current_piece
                (_update (Scenario.clock 16) (Scenario.playing []))) = 0.
Proof.
  assert (H : state (Scenario.playing []) = PLAYING)
    by (vm_compute; reflexivity).
  split; [exact H|].
  destruct (gravity_step (Scenario.clock 16) (Scenario.playing []) H)
    as (Hc & Hbelow & _).
  rewrite Hbelow by (vm_compute; reflexivity).
  split; [rewrite Hc|]; vm_compute; reflexivity.
Defined.

(** C1 on the game one hard drop before its end: the drop locks the piece,
    and the piece drawn has no valid position, so that the state is
    GameOver when the event has been handled. *)
Lemma lock_is_one_step_witness :
  state (Scenario.before_last_drop []) = PLAYING
  /\ state (_handle_events [SpecModel.keydown 20 K_SPACE [32]]
              (Scenario.before_last_drop [])) = GAME_OVER.
Proof.
  assert (H : state (Scenario.before_last_drop []) = PLAYING)
    by (vm_compute; reflexivity).
  split; [exact H|].
  destruct (lock_is_one_step (Scenario.clock 20)
              (Scenario.before_last_drop []) H) as (_ & Hd).
  destruct (Hd [32]) as (_ & Hok).
  destruct (Hok ltac:(vm_compute; reflexivity)) as (_ & _ & _ & Hover & _).
  apply Hover. vm_compute. reflexivity.
Defined.

Lemma SpecModel_moves_only_left : moves_only SpecModel.move_left.
Proof. intro p. split; reflexivity. Qed.

Lemma SpecModel_moves_only_right : moves_only SpecModel.move_right.
Proof. intro p. split; reflexivity. Qed.

Lemma SpecModel_rotate_keeps_shape : keeps_shape SpecModel.rotate.
Proof. intro p. reflexivity. Qed.

(** C2 on the upright piece at the right wall: the rotation would leave the
    board, and the attempt leaves the game as it is. *)
Lemma invalid_move_is_reverted_witness :
  is_valid_position (board Scenario.at_right_wall)
    (moved (C := SpecModel.model) K_UP (current_piece Scenario.at_right_wall))
  = false
  /\ _apply_key_movement K_UP Scenario.at_right_wall = Scenario.at_right_wall
  /\ Piece.rotation (current_piece Scenario.at_right_wall) = 1.
Proof.
  assert (H : is_valid_position (board Scenario.at_right_wall)
                (moved (C := SpecModel.model) K_UP
                   (current_piece Scenario.at_right_wall)) = false)
    by (vm_compute; reflexivity).
  split; [exact H|]. split; [|vm_compute; reflexivity].
  destruct (invalid_move_is_reverted K_UP Scenario.at_right_wall
              (or_intror (or_intror eq_refl)) H) as (_ & _ & _ & Hall).
  apply Hall.
  - exact SpecModel_moves_only_left.
  - exact SpecModel_moves_only_right.
  - exact SpecModel_rotate_keeps_shape.
Defined.

Lemma Scenario_named_reachable : reachable Scenario.named.
Proof.
  unfold Scenario.named, Scenario.game_over, Scenario.playing,
    SpecModel.new_game.
  apply reachable_events; [apply reachable_events; [apply reachable_events|]|].
  - apply reachable_init.
  - cbv. repeat constructor.
  - cbv. repeat constructor.
  - cbv. repeat constructor.
Qed.

(** C6 on the game that has ended and in which a name was typed. *)
Lemma player_name_is_well_formed_witness :
  reachable Scenario.named
  /\ name_ok (player_name Scenario.named)
  /\ player_name Scenario.named = [97; 45; 55].
Proof.
  split; [exact Scenario_named_reachable|]. split.
  - exact (proj1 (player_name_is_well_formed Scenario.named
                    Scenario_named_reachable)).
  - vm_compute. reflexivity.
Defined.

(** C9 on the game that has ended with an empty name: the ranking holds one
    record, under "Anonimo". *)
Lemma empty_name_is_recorded_as_Anonimo_witness :
  state (Scenario.game_over []) = GAME_OVER
  /\ is_highscore (score_manager (Scenario.game_over [])) = true
  /\ player_name (Scenario.game_over []) = []
  /\ map SpecModel.hs_name
       (SpecModel.highscores
          (score_manager
             (_handle_events [SpecModel.keydown 40 K_RETURN [13]]
                (Scenario.game_over []))))
     = [Lit.Anonimo].
Proof.
  assert (Hs : state (Scenario.game_over []) = GAME_OVER)
    by (vm_compute; reflexivity).
  assert (Hq : is_highscore (score_manager (Scenario.game_over [])) = true)
    by (vm_compute; reflexivity).
  assert (Hn : player_name (Scenario.game_over []) = [])
    by (vm_compute; reflexivity).
  split; [exact Hs|]. split; [exact Hq|]. split; [exact Hn|].
  destruct (empty_name_is_recorded_as_Anonimo (Scenario.clock 40)
              (Scenario.game_over []) [13] Hs Hq Hn) as (E & _).
  unfold SpecModel.keydown. change {| ticks := 40; seed := 0 |}
    with (Scenario.clock 40).
  rewrite E. vm_compute. reflexivity.
Defined.

(** C5 on the game that has ended against a full ranking: the score does not
    qualify, and the confirm key leaves the state GameOver. *)
Lemma game_over_without_highscore_is_stuck_witness :
  state (Scenario.game_over Scenario.full_ranking) = GAME_OVER
  /\ is_highscore (score_manager (Scenario.game_over Scenario.full_ranking))
     = false
  /\ state (_handle_events [SpecModel.keydown 40 K_RETURN [13]]
              (Scenario.game_over Scenario.full_ranking)) = GAME_OVER.
Proof.
  assert (Hs : state (Scenario.game_over Scenario.full_ranking) = GAME_OVER)
    by (vm_compute; reflexivity).
  assert (Hq : is_highscore
                 (score_manager (Scenario.game_over Scenario.full_ranking))
               = false)
    by (vm_compute; reflexivity).
  split; [exact Hs|]. split; [exact Hq|].
  rewrite (game_over_without_highscore_is_stuck
             [SpecModel.keydown 40 K_RETURN [13]]
             (Scenario.game_over Scenario.full_ranking) Hs Hq).
  - exact Hs.
  - constructor; [discriminate|constructor].
Defined.

Lemma Scenario_playing_reachable : reachable (Scenario.playing []).
Proof.
  unfold Scenario.playing, SpecModel.new_game.
  apply reachable_events; [apply reachable_init|].
  cbv. repeat constructor.
Qed.

(** C10 on the game that has just started: the hard-drop key drops the
    first piece, an I, to the bottom row, where it is locked in columns 3 to
    6; the next piece, an O, is the current piece; and no key is held for
    the repeat. *)
Lemma hard_drop_is_not_repeated_witness :
  reachable (Scenario.playing [])
  /\ state (Scenario.playing []) = PLAYING
  /\ nth 19 (SpecModel.grid
                (board (_handle_events [SpecModel.keydown 20 K_SPACE [32]]
                          (Scenario.playing [])))) []
     = [None; None; None; Some I_; Some I_; Some I_; Some I_;
        None; None; None]
  /\ current_piece (_handle_events [SpecModel.keydown 20 K_SPACE [32]]
                      (Scenario.playing []))
     = SpecModel.spawn O_
  /\ last_key (_handle_events [SpecModel.keydown 20 K_SPACE [32]]
                 (Scenario.playing [])) = None
  /\ repeat_due 5000 (_handle_events [SpecModel.keydown 20 K_SPACE [32]]
                        (Scenario.playing [])) = None.
Proof.
  assert (Hs : state (Scenario.playing []) = PLAYING)
    by (vm_compute; reflexivity).
  split; [exact Scenario_playing_reachable|]. split; [exact Hs|].
  pose proof (hard_drop_is_not_repeated (Scenario.clock 20)
                (Scenario.playing []) [32] Scenario_playing_reachable Hs)
    as T.
  cbv zeta in T. destruct T as ((Hb & _ & Hd) & _ & Hk & _).
  destruct (Hd ltac:(vm_compute; reflexivity)) as (Hp & _).
  unfold SpecModel.keydown.
  change {| ticks := 20; seed := 0 |} with (Scenario.clock 20).
  split; [rewrite Hb; vm_compute; reflexivity|].
  split; [rewrite Hp; vm_compute; reflexivity|].
  split.
  - rewrite Hk. vm_compute. reflexivity.
  - unfold repeat_due. rewrite Hk. vm_compute. reflexivity.
Defined.

(** C4 on the game in which the left key is held from 1000 ms on: the
    key-down moves the piece from column 3 to column 2, the frame at
    1171 ms repeats the move, and the frame at 1231 ms, 60 ms later, does
    not. *)
Lemma repeat_fires_every_290ms_witness :
  state Scenario.holding_left = PLAYING
  /\ repeat_due 1171 Scenario.holding_left = Some K_LEFT
  /\ repeat_due 1231 (_update (Scenario.clock 1171) Scenario.holding_left)
     = None
  /\ map (fun g : Game => Piece.x (current_piece g))
       [Scenario.playing [];
        Scenario.holding_left;
        _update (Scenario.clock 1171) Scenario.holding_left;
        _update (Scenario.clock 1231)
          (_update (Scenario.clock 1171) Scenario.holding_left)]
     = [3; 2; 1; 1].
Proof.
  assert (Hs : state Scenario.holding_left = PLAYING)
    by (vm_compute; reflexivity).
  assert (Hd : repeat_due 1171 Scenario.holding_left = Some K_LEFT)
    by (vm_compute; reflexivity).
  split; [exact Hs|]. split; [exact Hd|]. split.
  - refine (proj2 (repeat_fires_every_290ms (Scenario.clock 1171)
                     Scenario.holding_left 1231 Hs _ _ _ _)).
    + vm_compute. reflexivity.
    + vm_compute. reflexivity.
    + change (ticks (Scenario.clock 1171)) with 1171. rewrite Hd. discriminate.
    + simpl. lia.
  - vm_compute. reflexivity.
Defined.

(** C7 on three runs: the window is closed, the process is interrupted, a
    collaborator fails.  The first two return and the third passes the
    exception on, each with one call of [save_highscores]. *)
Lemma run_saves_highscores_once_witness :
  let g := SpecModel.new_game [] 0 in
  let shutdown := [save_highscores; display_quit; pygame_quit] in
  run Scenario.closed_window Scenario.calm g = Some (returned, shutdown)
  /\ run Scenario.interrupted Scenario.calm g = Some (returned, shutdown)
  /\ run Scenario.failing Scenario.calm g
     = Some (propagated (Exception 1), shutdown)
  /\ count save_highscores shutdown = 1%nat.
Proof.
  intros g shutdown.
  assert (H1 : run Scenario.closed_window Scenario.calm g
               = Some (returned, shutdown)) by (vm_compute; reflexivity).
  assert (H2 : run Scenario.interrupted Scenario.calm g
               = Some (returned, shutdown)) by (vm_compute; reflexivity).
  assert (H3 : run Scenario.failing Scenario.calm g
               = Some (propagated (Exception 1), shutdown))
    by (vm_compute; reflexivity).
  split; [exact H1|]. split; [exact H2|]. split; [exact H3|].
  exact (proj1 (run_saves_highscores_once Scenario.closed_window
                  Scenario.calm g returned shutdown H1)).
Defined.

End OnSpecModel.

(** ** More of the controller *)

Section MoreControllerFacts.
Context {C : Collaborators}.

Ltac case_ifs :=
  repeat match goal with
         | |- context [if ?b then _ else _] => destruct b
         end.

(** *** The events of one frame *)

(** X2: the events of a frame are handled one after the other: as long as
    the window is not closed, handling two batches at once is handling the
    first and then the second. *)
Theorem handle_events_app (a b : list (Env * Event)) : forall (g : Game),
  Forall (fun ee => snd ee <> QUIT) a ->
  _handle_events (a ++ b) g = _handle_events b (_handle_events a g).
Proof.
  induction a as [|[env e] rest IH]; intros g Hn; [reflexivity|].
  inversion Hn as [|? ? He Hrest]; subst. simpl in He.
  destruct e as [|key u|key|ty]; [contradiction| | |];
    cbn [_handle_events app]; apply IH; exact Hrest.
Qed.

(** X1: closing the window clears [running] and ends the handling of the
    frame: the events that came after it are dropped. *)
Theorem handle_events_quit (a b : list (Env * Event)) env (g : Game) :
  Forall (fun ee => snd ee <> QUIT) a ->
  _handle_events (a ++ (env, QUIT) :: b) g
  = set_running false (_handle_events a g).
Proof.
  revert g. induction a as [|[env' e] rest IH]; intros g Hn; [reflexivity|].
  inversion Hn as [|? ? He Hrest]; subst. simpl in He.
  destruct e as [|key u|key|ty]; [contradiction| | |];
    cbn [_handle_events app]; apply IH; exact Hrest.
Qed.

(** *** The transitions of the state machine *)





(** X4: outside the menu no event but the closing of the window stops the
    program: the handlers of the other states and the update leave
    [running] as it is. *)
Theorem only_the_menu_stops env e (g : Game) :
  state g <> MENU ->
  running (dispatch env e g) = running g
  /\ running (_update env g) = running g.
Proof.
  intro Hs. split; [|apply update_frame].
  unfold dispatch. destruct (state g) eqn:E; [contradiction| | | | |].
  - unfold _handle_game_events. cbv zeta.
    destruct e as [|key u|key|ty]; try reflexivity.
    + destruct (key =? K_p); [reflexivity|].
      destruct (key =? K_ESCAPE); [reflexivity|].
      destruct (key =? K_SPACE).
      * pose proof (lock_and_spawn_frame
                      (snd (hard_drop (board g) (current_piece g))) g) as F.
        cbv zeta in F. destruct F as (Fr & _). exact Fr.
      * match goal with
        | |- context [_apply_key_movement key ?h] =>
            pose proof (apply_key_movement_frame key h) as F
        end.
        cbv zeta in F. destruct F as (_ & _ & Fr & _). rewrite Fr.
        destruct (key =? K_DOWN); reflexivity.
    + assert (R : running (if key =? K_DOWN then set_soft_drop_active false g
                           else g) = running g)
        by (destruct (key =? K_DOWN); reflexivity).
      match goal with
      | |- context [last_key ?h] => destruct (last_key h) as [k|]
      end; [destruct (key =? k)|]; simpl; exact R.
  - unfold _handle_pause_events. cbv zeta.
    destruct (fst (handle_menu_input _ _ _)); case_ifs; reflexivity.
  - unfold _handle_game_over_events.
    destruct (is_highscore _); [|reflexivity].
    destruct e as [|key u|key|ty]; try reflexivity.
    case_ifs; reflexivity.
  - unfold _handle_rankings_events.
    destruct e as [|key u|key|ty]; try reflexivity.
    case_ifs; reflexivity.
  - reflexivity.
Qed.

(** *** Invariants of the reachable states *)

(** A property of the new game object that every handler, the closing of
    the window and the update keep holds in every state reached. *)
Lemma reachable_invariant (P : Game -> Prop) :
  (forall sm u env, P (__init__ sm u env)) ->
  (forall env e g, well_formed e -> P g -> P (dispatch env e g)) ->
  (forall g, P g -> P (set_running false g)) ->
  (forall env g, P g -> P (_update env g)) ->
  forall g, reachable g -> P g.
Proof.
  intros Hinit Hdisp Hquit Hupd g Hr.
  induction Hr as [sm u env|g events Hr IH Hw|g env Hr IH].
  - apply Hinit.
  - clear Hr. revert g IH.
    induction events as [|[env e] rest IHe]; intros g IH; [exact IH|].
    inversion Hw as [|? ? He Hrest]; subst. simpl in He.
    destruct e as [|key u|key|ty]; cbn [_handle_events];
      [apply Hquit; exact IH| | |];
      apply (IHe Hrest); apply Hdisp; assumption.
  - apply Hupd. exact IH.
Qed.

Ltac case_all :=
  repeat match goal with
         | |- context [match ?x with _ => _ end] => destruct x
         end.

Lemma dispatch_settings_inv env e (g : Game) :
  settings_inv g -> settings_inv (dispatch env e g).
Proof.
  intros (Hd & Hi & Hf & Ha & Hc).
  unfold settings_inv, dispatch, _handle_menu_events, _handle_game_events,
    _handle_pause_events, _handle_game_over_events, _handle_rankings_events,
    _handle_settings_events, _perform_hard_drop, lock_and_spawn,
    _apply_key_movement, reset_selected_option.
  cbv zeta. case_all; simpl; repeat split; solve [assumption|reflexivity|lia].
Qed.

Lemma update_settings_inv env (g : Game) :
  settings_inv g -> settings_inv (_update env g).
Proof.
  intros (Hd & Hi & Hf & Ha & Hc).
  unfold settings_inv, _update, _update_game, key_repeat, _move_piece_down,
    lock_and_spawn, _apply_key_movement.
  cbv zeta. case_all; simpl; repeat split;
    solve [assumption|reflexivity|lia].
Qed.

Lemma reachable_settings_inv (g : Game) : reachable g -> settings_inv g.
Proof.
  apply reachable_invariant.
  - intros sm u env. repeat split; simpl; lia.
  - intros env e g0 _. apply dispatch_settings_inv.
  - intros g0 H. exact H.
  - intros env g0. apply update_settings_inv.
Qed.

(** X5: in every state the controller reaches, the repeat delay is 170 ms,
    the repeat interval 50 ms, [fall_speed] 30 and [input_active] false,
    as [_init_game] and [__init__] set them, and the fall counter is not
    negative. *)
Theorem settings_are_constant (g : Game) :
  reachable g -> settings_inv g.
Proof. exact (reachable_settings_inv g). Qed.

Lemma fall_interval_positive lvl soft : 1 <= spec_fall_interval lvl soft.
Proof.
  unfold spec_fall_interval. cbv zeta.
  pose proof (Z.le_max_l 5 (30 - (lvl - 1))) as M.
  destruct soft; [|lia].
  apply Z.div_le_lower_bound; lia.
Qed.

(** X6: after every frame of play the fall counter is below the fall
    interval of that frame, and it is not negative when it was not before:
    a piece is never left for more frames than the interval without a try
    to move it down. *)
Theorem counter_stays_below_interval env (g : Game) :
  state g = PLAYING ->
  fall_counter (_update env g)
  < spec_fall_interval (level (board g)) (soft_drop_active g)
  /\ (0 <= fall_counter g -> 0 <= fall_counter (_update env g)).
Proof.
  intro Hs.
  pose proof (fall_interval_positive (level (board g)) (soft_drop_active g))
    as Hp.
  destruct (update_by_counter env g Hs) as (Hc & Hlt & Hge).
  destruct (Z_lt_ge_dec (fall_counter g + 1)
              (spec_fall_interval (level (board g)) (soft_drop_active g)))
    as [L|G].
  - rewrite (Hlt L), Hc. lia.
  - destruct (Hge G) as (_ & Hz & _). rewrite Hz. lia.
Qed.

(** *** Keys that move nothing *)

Lemma moved_other_key key p :
  key <> K_LEFT -> key <> K_RIGHT -> key <> K_UP -> moved key p = p.
Proof.
  intros H1 H2 H3. unfold moved.
  destruct (Z.eqb_spec key K_LEFT); [contradiction|].
  destruct (Z.eqb_spec key K_RIGHT); [contradiction|].
  destruct (Z.eqb_spec key K_UP); [contradiction|]. reflexivity.
Qed.

Lemma apply_other_key key (g : Game) :
  key <> K_LEFT -> key <> K_RIGHT -> key <> K_UP ->
  _apply_key_movement key g = g.
Proof.
  intros H1 H2 H3. unfold _apply_key_movement. cbv zeta.
  rewrite (moved_other_key key _ H1 H2 H3).
  destruct (Z.eqb_spec key K_UP); [contradiction|].
  rewrite set_x_same, set_y_same.
  destruct (negb _); apply set_current_piece_same.
Qed.

(** X7: for a key that is not the left, right or rotate key,
    [_apply_key_movement] leaves the game as it is, whether or not the
    piece has a valid position. *)
Theorem other_keys_move_nothing key (g : Game) :
  key <> K_LEFT -> key <> K_RIGHT -> key <> K_UP ->
  _apply_key_movement key g = g.
Proof. exact (apply_other_key key g). Qed.

(** *** The piece in play has a valid position *)

Section ValidPiece.
Hypothesis left_moves_only : moves_only move_left.
Hypothesis right_moves_only : moves_only move_right.
Hypothesis rotate_keeps_shape : keeps_shape rotate.

(** The piece a reverted attempt leaves is the piece before the attempt. *)
Lemma reverted_piece key p :
  (if key =? K_UP
   then Piece.set_rotation (Piece.rotation p)
          (Piece.set_y (Piece.y p) (Piece.set_x (Piece.x p) (moved key p)))
   else Piece.set_y (Piece.y p) (Piece.set_x (Piece.x p) (moved key p)))
  = p.
Proof.
  unfold moved.
  destruct (key =? K_LEFT); [|destruct (key =? K_RIGHT)];
    destruct (key =? K_UP); apply piece_eq; simpl;
    try reflexivity;
    solve [apply left_moves_only | apply right_moves_only
          | apply rotate_keeps_shape].
Qed.

Lemma apply_key_movement_valid key (g : Game) :
  is_valid_position (board g) (current_piece g) = true ->
  is_valid_position (board (_apply_key_movement key g))
    (current_piece (_apply_key_movement key g)) = true.
Proof.
  intro Hv. unfold _apply_key_movement. cbv zeta.
  destruct (is_valid_position (board g) (moved key (current_piece g))) eqn:Em;
    cbn [negb].
  - simpl. exact Em.
  - cbn [board current_piece set_current_piece].
    rewrite reverted_piece. exact Hv.
Qed.

Lemma lock_and_spawn_valid p (g : Game) :
  state (lock_and_spawn p g) = GAME_OVER
  \/ is_valid_position (board (lock_and_spawn p g))
       (current_piece (lock_and_spawn p g)) = true.
Proof.
  unfold lock_and_spawn. cbv zeta.
  destruct (negb (fst (add_piece (board g) p))); [left; reflexivity|].
  match goal with
  | |- context [if negb ?b then _ else _] => destruct b eqn:Ev
  end; cbn [negb]; [right; exact Ev|left; reflexivity].
Qed.

Lemma move_piece_down_valid (g : Game) :
  state (_move_piece_down g) = GAME_OVER
  \/ is_valid_position (board (_move_piece_down g))
       (current_piece (_move_piece_down g)) = true.
Proof.
  unfold _move_piece_down. cbv zeta.
  destruct (is_valid_position (board g) (move_down (current_piece g))) eqn:Ev;
    cbn [negb].
  - right. simpl. exact Ev.
  - apply lock_and_spawn_valid.
Qed.

Lemma dispatch_piece_inv env e (g : Game) :
  first_piece_fits -> piece_inv g -> piece_inv (dispatch env e g).
Proof.
  intros Hf Hi. unfold piece_inv in *. unfold dispatch.
  destruct (state g) eqn:Hs.
  - (* Menu *)
    unfold _handle_menu_events. cbv zeta.
    destruct (fst (handle_menu_input _ _ _)) as [action|];
      [|simpl; rewrite Hs; intros [H|H]; discriminate].
    destruct (Py.str_eqb action Lit.Jugar).
    { intros _. exact (Hf (seed env)). }
    case_ifs; simpl; rewrite ?Hs; intros [H|H]; discriminate.
  - (* Playing *)
    assert (Hv : is_valid_position (board g) (current_piece g) = true)
      by (apply Hi; left; reflexivity).
    unfold _handle_game_events. cbv zeta.
    destruct e as [|key u|key|ty]; try (intros _; exact Hv).
    + destruct (key =? K_p); [intros _; exact Hv|].
      destruct (key =? K_ESCAPE); [simpl; intros [H|H]; discriminate|].
      destruct (key =? K_SPACE).
      * unfold _perform_hard_drop. cbv zeta.
        destruct (lock_and_spawn_valid
                    (snd (hard_drop (board g) (current_piece g))) g)
          as [E|E]; [rewrite E; intros [H|H]; discriminate|intros _; exact E].
      * intros _. apply apply_key_movement_valid.
        destruct (key =? K_DOWN); exact Hv.
    + intros _.
      assert (E : forall h : Game,
                 board h = board g -> current_piece h = current_piece g ->
                 is_valid_position (board h) (current_piece h) = true)
        by (intros h Eb Ep; rewrite Eb, Ep; exact Hv).
      match goal with
      | |- context [last_key ?h] => destruct (last_key h) as [k|]
      end; [destruct (key =? k)|]; apply E;
        destruct (key =? K_DOWN); reflexivity.
  - (* Paused *)
    assert (Hv : is_valid_position (board g) (current_piece g) = true)
      by (apply Hi; right; reflexivity).
    unfold _handle_pause_events. cbv zeta.
    destruct (fst (handle_menu_input _ _ _)) as [action|];
      [|intros _; exact Hv].
    destruct (Py.str_eqb action Lit.Continuar); [intros _; exact Hv|].
    destruct (Py.str_eqb action Lit.Reiniciar).
    { intros _. exact (Hf (seed env)). }
    destruct (Py.str_eqb action Lit.Salir_al_Menu);
      [simpl; intros [H|H]; discriminate|intros _; exact Hv].
  - (* GameOver *)
    unfold _handle_game_over_events.
    destruct (is_highscore _); [|rewrite Hs; intros [H|H]; discriminate].
    destruct e as [|key u|key|ty];
      try (rewrite Hs; intros [H|H]; discriminate).
    case_ifs; simpl; rewrite ?Hs; intros [H|H]; discriminate.
  - (* Rankings *)
    unfold _handle_rankings_events.
    destruct e as [|key u|key|ty];
      try (rewrite Hs; intros [H|H]; discriminate).
    case_ifs; simpl; rewrite ?Hs; intros [H|H]; discriminate.
  - (* Settings *)
    simpl. intros [H|H]; discriminate.
Qed.

Lemma update_piece_inv env (g : Game) :
  piece_inv g -> piece_inv (_update env g).
Proof.
  intro Hi. unfold _update.
  destruct (GameState_eqb (state g) PLAYING) eqn:Hp; [|exact Hi].
  apply GameState_eqb_eq in Hp.
  assert (Hv : is_valid_position (board g) (current_piece g) = true)
    by (apply Hi; left; exact Hp).
  unfold piece_inv, _update_game. cbv zeta.
  assert (Hk : is_valid_position (board (key_repeat (ticks env) g))
                 (current_piece (key_repeat (ticks env) g)) = true).
  { unfold key_repeat. destruct (repeat_due (ticks env) g) as [k|];
      [|exact Hv].
    exact (apply_key_movement_valid k g Hv). }
  match goal with
  | |- context [if ?b then _ else _] => destruct b
  end; [|intros _; exact Hk].
  match goal with
  | |- context [_move_piece_down ?h] =>
      destruct (move_piece_down_valid h) as [E|E]
  end.
  - simpl. rewrite E. intros [H|H]; discriminate.
  - intros _. exact E.
Qed.

(** X8: while a game is played or paused, the current piece has a valid
    position on the board, in every state the controller reaches: a move or
    a rotation is kept only when it is valid, a descent moves the piece only
    when the row below is free, and a lock ends the game when the piece
    drawn does not fit.  The moves of a piece are taken to change nothing
    but its position, the rotation to leave its shape, and the first piece
    of a game to fit the empty board. *)
Theorem piece_in_play_is_valid (g : Game) :
  first_piece_fits -> reachable g ->
  state g = PLAYING \/ state g = PAUSED ->
  is_valid_position (board g) (current_piece g) = true.
Proof.
  intros Hf Hr. revert g Hr.
  apply (reachable_invariant piece_inv).
  - intros sm u env _. exact (Hf (seed env)).
  - intros env e g _. apply dispatch_piece_inv. exact Hf.
  - intros g H. exact H.
  - intros env g. apply update_piece_inv.
Qed.

End ValidPiece.

(** *** Keys pressed and released *)

Lemma handle_keydown_other env key unicode (g : Game) :
  key <> K_p -> key <> K_ESCAPE -> key <> K_SPACE ->
  _handle_game_events env (KEYDOWN key unicode) g
  = _apply_key_movement key
      (set_last_key_time (ticks env)
         (set_last_key (Some key)
            (if key =? K_DOWN then set_soft_drop_active true g else g))).
Proof.
  intros H1 H2 H3. unfold _handle_game_events. cbv zeta.
  destruct (Z.eqb_spec key K_p); [contradiction|].
  destruct (Z.eqb_spec key K_ESCAPE); [contradiction|].
  destruct (Z.eqb_spec key K_SPACE); [contradiction|]. reflexivity.
Qed.

(** X9: only the key recorded last is repeated.  When, of two keys that
    are not the pause, exit or hard-drop key (which are not recorded), one
    is pressed during play while the other is held, and is released again,
    no key is held for the repeat any more, although the first key is still
    down: no repeat is due until the next key-down. *)
Theorem release_ends_the_repeat env1 env2 env3 k1 k2 u1 u2 (g : Game) :
  state g = PLAYING ->
  k1 <> K_p -> k1 <> K_ESCAPE -> k1 <> K_SPACE ->
  k2 <> K_p -> k2 <> K_ESCAPE -> k2 <> K_SPACE ->
  let g' := _handle_events
              [(env1, KEYDOWN k1 u1); (env2, KEYDOWN k2 u2); (env3, KEYUP k2)]
              g in
  last_key g' = None /\ forall t, repeat_due t g' = None.
Proof.
  intros Hs A1 A2 A3 B1 B2 B3 g'.
  assert (L : last_key g' = None).
  { unfold g'. cbn [_handle_events]. unfold dispatch at 3. rewrite Hs.
    rewrite (handle_keydown_other env1 k1 u1 g A1 A2 A3).
    match goal with
    | |- context [_apply_key_movement k1 ?h] =>
        pose proof (apply_key_movement_frame k1 h) as F; cbv zeta in F;
        destruct F as (_ & Fs & _);
        set (g1 := _apply_key_movement k1 h) in *
    end.
    assert (Hs1 : state g1 = PLAYING).
    { rewrite Fs. destruct (k1 =? K_DOWN); simpl; exact Hs. }
    unfold dispatch at 2. rewrite Hs1.
    rewrite (handle_keydown_other env2 k2 u2 g1 B1 B2 B3).
    match goal with
    | |- context [_apply_key_movement k2 ?h] =>
        pose proof (apply_key_movement_frame k2 h) as F2; cbv zeta in F2;
        destruct F2 as (_ & Fs2 & _ & _ & _ & _ & Fk2 & _);
        set (g2 := _apply_key_movement k2 h) in *
    end.
    assert (Hs2 : state g2 = PLAYING).
    { rewrite Fs2. destruct (k2 =? K_DOWN); simpl; exact Hs1. }
    simpl in Fk2.
    unfold dispatch. rewrite Hs2. unfold _handle_game_events. cbv zeta.
    assert (Hk : last_key (if k2 =? K_DOWN then set_soft_drop_active false g2
                           else g2) = Some k2)
      by (destruct (k2 =? K_DOWN); simpl; exact Fk2).
    rewrite Hk, Z.eqb_refl. reflexivity. }
  split; [exact L|]. intro t. unfold repeat_due. rewrite L. reflexivity.
Qed.

(** X10: the down key moves nothing by itself.  Pressed and released
    during play, it leaves the board, the piece, the generator and the
    fall counter as they were; soft drop is on between the two events and
    off after them, and no key is held for the repeat. *)
Theorem soft_drop_press_and_release env1 env2 unicode (g : Game) :
  state g = PLAYING ->
  soft_drop_active
    (_handle_events [(env1, KEYDOWN K_DOWN unicode)] g) = true
  /\ _handle_events [(env1, KEYDOWN K_DOWN unicode); (env2, KEYUP K_DOWN)] g
     = set_last_key None
         (set_last_key_time (ticks env1) (set_soft_drop_active false g)).
Proof.
  intro Hs.
  assert (E : dispatch env1 (KEYDOWN K_DOWN unicode) g
              = set_last_key_time (ticks env1)
                  (set_last_key (Some K_DOWN) (set_soft_drop_active true g))).
  { unfold dispatch. rewrite Hs.
    rewrite handle_keydown_other by discriminate.
    change (K_DOWN =? K_DOWN) with true. cbv iota.
    apply apply_other_key; discriminate. }
  cbn [_handle_events]. rewrite E. split; [reflexivity|].
  unfold dispatch. cbn [state set_last_key_time set_last_key
                          set_soft_drop_active]. rewrite Hs.
  destruct g; reflexivity.
Qed.

(** X11: a pause and a resume leave the game as it was.  When the pause
    key is pressed during play and the pause menu then answers "Continuar"
    to an event, the state is Playing again and the board, the piece, the
    generator, the fall counter, the soft drop, the held key and its time,
    the score manager and the name are those from before the pause: only
    the user interface may differ. *)
Theorem pause_and_resume env1 env2 unicode e (g : Game) :
  state g = PLAYING -> e <> QUIT ->
  let paused := _handle_events [(env1, KEYDOWN K_p unicode)] g in
  let answer := handle_menu_input (ui paused) e
                  (menu_options (ui paused) Lit.pause) in
  fst answer = Some Lit.Continuar ->
  state paused = PAUSED
  /\ _handle_events [(env1, KEYDOWN K_p unicode); (env2, e)] g
     = set_ui (snd answer) g.
Proof.
  intros Hs He paused answer Ha.
  assert (Ep : paused = reset_selected_option (set_state PAUSED g)).
  { unfold paused. cbn [_handle_events]. unfold dispatch. rewrite Hs.
    reflexivity. }
  split; [rewrite Ep; reflexivity|].
  assert (E2 : _handle_events [(env1, KEYDOWN K_p unicode); (env2, e)] g
               = dispatch env2 e paused).
  { unfold paused. cbn [_handle_events].
    destruct e as [|key u|key|ty]; [contradiction| | |]; reflexivity. }
  rewrite E2. unfold dispatch.
  replace (state paused) with PAUSED by (rewrite Ep; reflexivity).
  unfold _handle_pause_events. cbv zeta. fold answer. rewrite Ha.
  change (Py.str_eqb Lit.Continuar Lit.Continuar) with true. cbv iota.
  rewrite Ep. destruct g; simpl in *. rewrite Hs. reflexivity.
Qed.

(** X12: outside a game nothing touches the game.  In the states GameOver,
    Rankings and Settings no event changes the board, the current piece,
    the generator, the fall counter, the soft drop or the held key. *)
Theorem events_outside_play_keep_the_game env e (g : Game) :
  state g = GAME_OVER \/ state g = RANKINGS \/ state g = SETTINGS ->
  let g' := dispatch env e g in
  board g' = board g /\ current_piece g' = current_piece g
  /\ piece_generator g' = piece_generator g
  /\ fall_counter g' = fall_counter g
  /\ soft_drop_active g' = soft_drop_active g
  /\ last_key g' = last_key g /\ last_key_time g' = last_key_time g.
Proof.
  intros Hs. unfold dispatch.
  destruct Hs as [Hs|[Hs|Hs]]; rewrite Hs;
    unfold _handle_game_over_events, _handle_rankings_events,
      _handle_settings_events; cbv zeta;
    case_all; simpl; repeat split; reflexivity.
Qed.

(** X13: the edges of the name entry.  At a qualifying game over, a key
    that is neither confirm nor backspace changes nothing once the name
    holds 15 characters; a key that types no character changes nothing;
    and backspace changes nothing when the name is empty. *)
Theorem name_entry_edges key unicode (g : Game) :
  is_highscore (score_manager g) = true ->
  (key <> K_RETURN -> key <> K_BACKSPACE ->
   (15 <= length (player_name g))%nat \/ unicode = [] ->
   _handle_game_over_events (KEYDOWN key unicode) g = g)
  /\ (player_name g = [] ->
      _handle_game_over_events (KEYDOWN K_BACKSPACE unicode) g = g).
Proof.
  intro Hq. unfold _handle_game_over_events. rewrite Hq. split.
  - intros H1 H2 Hc.
    destruct (Z.eqb_spec key K_RETURN); [contradiction|].
    destruct (Z.eqb_spec key K_BACKSPACE); [contradiction|].
    destruct (Z.ltb_spec (Z.of_nat (length (player_name g))) 15) as [L|L];
      [|reflexivity].
    destruct Hc as [Hc|Hc]; [lia|]. subst unicode.
    destruct (accepted []); [|reflexivity].
    rewrite app_nil_r. destruct g; reflexivity.
  - intro Hn. change (K_BACKSPACE =? K_RETURN) with false.
    change (K_BACKSPACE =? K_BACKSPACE) with true. cbv iota.
    rewrite Hn. simpl. rewrite <- Hn. destruct g; reflexivity.
Qed.

(** *** The shutdown of [run] *)

Lemma main_loop_never_quits_pygame script : forall (g : Game) x trace,
  main_loop script g = Some (x, trace) -> count pygame_quit trace = 0%nat.
Proof.
  induction script as [|f rest IH]; intros g x trace H; simpl in H.
  - destruct (running g); [discriminate|]. injection H as _ E. subst.
    reflexivity.
  - destruct (running g);
      [|injection H as _ E; subst; reflexivity].
    destruct f as [e|events env r];
      [injection H as _ E; subst; reflexivity|].
    destruct r as [|e r]; [exact (IH _ _ _ H)|].
    destruct e as [|tag|video|tag];
      try (injection H as _ E; subst; reflexivity).
    destruct video; [|exact (IH _ _ _ H)].
    destruct r; try (injection H as _ E; subst; reflexivity).
    destruct (main_loop rest _) as [[x' trace']|] eqn:Em; [|discriminate].
    injection H as _ E. subst. exact (IH _ _ _ Em).
Qed.

(** X14: when [save_highscores] raises, [run] is left by that exception,
    whatever the loop was left by, and the clean-up of pygame is skipped:
    the trace ends with the call of [save_highscores] and holds no call of
    [pygame.quit]. *)
Theorem failed_save_skips_clean_up script sd (g : Game) e exit trace :
  save_raises sd = Some e ->
  run script sd g = Some (exit, trace) ->
  exit = propagated e
  /\ (exists before, trace = before ++ [save_highscores])
  /\ count pygame_quit trace = 0%nat.
Proof.
  intros Hs H. unfold run in H.
  destruct (main_loop script g) as [[x tr]|] eqn:Em; [|discriminate].
  rewrite Hs in H. injection H as E1 E2. subst.
  split; [reflexivity|]. split; [exists tr; reflexivity|].
  rewrite count_app, (main_loop_never_quits_pygame script g x tr Em).
  reflexivity.
Qed.

(** X15: a failure of the clean-up does not change how [run] is left, as
    long as it is an [Exception]: when [save_highscores] returns and
    [pygame.display.quit] and [pygame.quit] return or raise an [Exception],
    [run] returns or passes an exception on exactly as it does when both
    return. *)
Theorem clean_up_failures_are_swallowed script sd (g : Game) :
  save_raises sd = None ->
  (forall e, display_quit_raises sd = Some e \/ pygame_quit_raises sd = Some e ->
             isinstance_Exception e = true) ->
  option_map fst (run script sd g)
  = option_map fst
      (run script
         {| save_raises := None; display_quit_raises := None;
            pygame_quit_raises := None |} g).
Proof.
  intros Hs Hc. unfold run.
  destruct (main_loop script g) as [[x tr]|]; [|reflexivity].
  rewrite Hs. cbn [save_raises option_map fst]. f_equal.
  unfold clean_up.
  cbn [display_quit_raises pygame_quit_raises fst].
  destruct (display_quit_raises sd) as [e1|] eqn:E1.
  - cbn [fst]. rewrite (Hc e1 (or_introl eq_refl)). reflexivity.
  - destruct (pygame_quit_raises sd) as [e2|] eqn:E2; [|reflexivity].
    cbn [fst]. rewrite (Hc e2 (or_intror eq_refl)). reflexivity.
Qed.

(** *** The name entry on the screen *)

(** X16: at a game over the controller reaches, a rendering draws the text
    of the name entry exactly when the score qualifies, and no other text;
    the text is "Nombre: " and the name, with the cursor during the first
    half of every second, and is at most 24 characters long. *)
Theorem name_entry_is_rendered get_highscore env (g : Game) :
  reachable g -> state g = GAME_OVER ->
  texts (_render get_highscore env g)
  = (if is_highscore (score_manager g) then [name_text (ticks env) g]
     else [])
  /\ (length (name_text (ticks env) g) <= 24)%nat
  /\ firstn 8 (name_text (ticks env) g) = Text.Nombre.
Proof.
  intros Hr Hs. split; [|split].
  - unfold _render. rewrite Hs. unfold texts, _render_game.
    destruct (is_highscore (score_manager g)); reflexivity.
  - destruct (reachable_inv g Hr) as [[Hl _] _].
    unfold name_text. cbv zeta.
    destruct (ticks env mod 1000 <? 500);
      rewrite ?length_app; simpl; lia.
  - unfold name_text. cbv zeta.
    destruct (ticks env mod 1000 <? 500); reflexivity.
Qed.

(** *** The first repeat *)

(** X20: after the key-down of a key during play, in a state the
    controller reaches, the repeat of that key is due exactly at the times
    more than 170 ms after the key-down, for every key but the pause, exit
    and hard-drop keys and the key code 0. *)
Theorem first_repeat_waits_for_the_delay env key unicode (g : Game) t :
  reachable g -> state g = PLAYING ->
  key <> K_p -> key <> K_ESCAPE -> key <> K_SPACE -> key <> 0 ->
  repeat_due t (_handle_events [(env, KEYDOWN key unicode)] g)
  = if t - ticks env >? 170 then Some key else None.
Proof.
  intros Hr Hs H1 H2 H3 H0.
  destruct (reachable_settings_inv g Hr) as (Hd & _).
  cbn [_handle_events]. unfold dispatch. rewrite Hs.
  rewrite (handle_keydown_other env key unicode g H1 H2 H3).
  match goal with
  | |- context [_apply_key_movement key ?h] =>
      pose proof (apply_key_movement_frame key h) as F; cbv zeta in F;
      destruct F as (_ & _ & _ & _ & _ & _ & Fk & Ft & Fd & _)
  end.
  unfold repeat_due. rewrite Fk, Ft, Fd.
  cbn [last_key last_key_time key_repeat_delay set_last_key_time set_last_key].
  replace (key_repeat_delay
             (if key =? K_DOWN then set_soft_drop_active true g else g))
    with 170 by (destruct (key =? K_DOWN); simpl; symmetry; exact Hd).
  destruct (Z.eqb_spec key 0); [contradiction|]. reflexivity.
Qed.

(** *** Errors of the rendering *)

(** X21: a [pygame.error] raised by the rendering never leaves the loop.
    When the loop is left by an exception, the exception was raised by the
    handling of the events or by the update, or it was raised by the
    rendering and is no [pygame.error]. *)
Theorem pygame_errors_stay_in_the_loop script : forall (g : Game) e trace,
  main_loop script g = Some (loop_raised e, trace) ->
  In (body_raises e) script
  \/ ((exists events env r, In (frame events env (render_raises e r)) script)
      /\ forall v, e <> pygame_error v).
Proof.
  induction script as [|f rest IH]; intros g e trace H; simpl in H.
  - destruct (running g); discriminate.
  - destruct (running g); [|discriminate].
    assert (K : forall g' tr',
               main_loop rest g' = Some (loop_raised e, tr') ->
               In (body_raises e) (f :: rest)
               \/ ((exists events env r,
                       In (frame events env (render_raises e r)) (f :: rest))
                   /\ forall v, e <> pygame_error v)).
    { intros g' tr' H'. destruct (IH g' e tr' H') as [I|[(ev & en & r & I) N]].
      - left. right. exact I.
      - right. split; [|exact N]. exists ev, en, r. right. exact I. }
    destruct f as [e0|events env r].
    + injection H as E _. subst. left. left. reflexivity.
    + destruct r as [|e0 r]; [exact (K _ _ H)|].
      destruct e0 as [|tag|video|tag].
      * injection H as E _. subst. right. split; [|discriminate].
        exists events, env, r. left. reflexivity.
      * injection H as E _. subst. right. split; [|discriminate].
        exists events, env, r. left. reflexivity.
      * destruct video; [|exact (K _ _ H)].
        destruct r; try discriminate.
        destruct (main_loop rest _) as [[x' trace']|] eqn:Em; [|discriminate].
        injection H as E _. subst. exact (K _ _ Em).
      * injection H as E _. subst. right. split; [|discriminate].
        exists events, env, r. left. reflexivity.
Qed.

End MoreControllerFacts.

(** *** The entry point *)

Section MainFacts.
Context {C : Collaborators}.

(** X17: the driver chosen is the first of the list that initializes: the
    drivers before it all raised [pygame.error], each was tried once and
    followed by [pygame.display.quit()], the last call is the
    [pygame.display.init()] under the driver chosen, and no driver after it
    is tried. *)
Theorem first_working_driver_is_chosen display_init drivers d trace :
  Main.select_driver display_init drivers = (Main.driver_set d, trace) ->
  exists before after,
    drivers = before ++ d :: after
    /\ display_init d = Main.initialized
    /\ Forall (fun d' => exists v,
                   display_init d' = Main.init_raises (pygame_error v))
         before
    /\ trace = flat_map Main.failed_attempt before ++ Main.attempt d.
Proof.
  revert trace. induction drivers as [|d0 rest IH]; simpl; intros trace H;
    [discriminate|].
  destruct (display_init d0) as [|e] eqn:E0.
  - injection H as H1 H2. subst. exists [], rest. repeat split; auto.
  - destruct e as [|tag|v|tag]; try discriminate.
    destruct (Main.select_driver display_init rest) as [sel tr] eqn:Es.
    cbn [fst snd] in H. injection H as H1 H2. subst.
    destruct (IH tr eq_refl) as (before & after & E & Hi & Hb & Ht).
    exists (d0 :: before), after. rewrite E, Ht.
    split; [reflexivity|]. split; [exact Hi|]. split.
    + constructor; [exists v; exact E0|exact Hb].
    + cbn [flat_map]. rewrite <- app_assoc. reflexivity.
Qed.

Lemma select_driver_none display_init drivers :
  Forall (fun d => exists v,
              display_init d = Main.init_raises (pygame_error v)) drivers ->
  Main.select_driver display_init drivers
  = (Main.no_driver, flat_map Main.failed_attempt drivers).
Proof.
  induction 1 as [|d rest [v Hd] Hrest IH]; simpl; [reflexivity|].
  rewrite Hd, IH. reflexivity.
Qed.

(** X18: when every driver of the platform raises [pygame.error], and so
    on every platform that is neither Windows, Linux nor macOS, for which
    the list of drivers is empty, the process ends with status 1 after one
    try of each driver, each followed by [pygame.display.quit()], and
    nothing else: no [pygame.init()], no game, no [run]. *)
Theorem no_driver_exits_with_status_1 os_name sys_platform display_init
  system_exit (game : Main.Construction) script sd :
  Forall (fun d => exists v,
              display_init d = Main.init_raises (pygame_error v))
    (Main.drivers_for os_name sys_platform) ->
  Main.main os_name sys_platform display_init system_exit game script sd
  = Some (Main.exit_status 1, None,
          flat_map Main.failed_attempt
            (Main.drivers_for os_name sys_platform)).
Proof.
  intro H. unfold Main.main. cbv zeta.
  rewrite (select_driver_none _ _ H). reflexivity.
Qed.

Lemma outer_handler_status_0 system_exit e trace :
  fst (Main.outer_handler system_exit e trace) = Main.exit_status 0 ->
  exists tag, e = BaseException tag /\ system_exit tag = Some 0.
Proof.
  unfold Main.outer_handler, Main.leaves.
  destruct e as [|tag|v|tag]; cbn [isinstance_Exception fst];
    try discriminate.
  destruct (system_exit tag) as [n|] eqn:E; [|discriminate].
  intro H. injection H as H. subst. exists tag. auto.
Qed.

(** X19: the process ends with status 0 in two ways only.  Either a driver
    initialized, the game was constructed and [run] returned: the calls
    made are then those of the choice of the driver, [pygame.init()] and
    the calls of that [run], in this order.  Or a [SystemExit] with status
    0 was raised by [pygame.display.init()], by the construction of the
    game or out of [run], and nothing caught it. *)
Theorem status_0_means_run_returned os_name sys_platform display_init
  system_exit (game : Main.Construction) script sd chosen trace :
  Main.main os_name sys_platform display_init system_exit game script sd
  = Some (Main.exit_status 0, chosen, trace) ->
  let selection :=
    Main.select_driver display_init (Main.drivers_for os_name sys_platform) in
  (exists d sm u env calls,
      chosen = Some d
      /\ fst selection = Main.driver_set d
      /\ game = Main.constructed sm u env
      /\ run script sd (__init__ sm u env) = Some (returned, calls)
      /\ trace = snd selection ++ [Main.pygame_init]
                 ++ map Main.outward calls)
  \/ (exists tag,
         system_exit tag = Some 0
         /\ (fst selection = Main.selection_raised (BaseException tag)
             \/ game = Main.construction_raises (BaseException tag)
             \/ exists sm u env calls,
                  game = Main.constructed sm u env
                  /\ run script sd (__init__ sm u env)
                     = Some (propagated (BaseException tag), calls))).
Proof.
  unfold Main.main. cbv zeta. intro H.
  destruct (Main.select_driver display_init
              (Main.drivers_for os_name sys_platform)) as [sel dtrace].
  cbn [fst snd] in *. destruct sel as [d| |e].
  - destruct game as [sm u env|e].
    + destruct (run script sd (__init__ sm u env)) as [[[|e] calls]|] eqn:Er;
        [| |discriminate].
      * injection H as E1 E2. subst. left.
        exists d, sm, u, env, calls. rewrite <- app_assoc. auto.
      * injection H as E0 E1 E2.
        destruct (outer_handler_status_0 _ _ _ E0) as (tag & Ee & Hx).
        subst e. right. exists tag. split; [exact Hx|]. right. right.
        exists sm, u, env, calls. auto.
    + injection H as E0 E1 E2.
      destruct (outer_handler_status_0 _ _ _ E0) as (tag & Ee & Hx).
      subst e. right. exists tag. auto.
  - discriminate.
  - injection H as E0 E1 E2.
    destruct (outer_handler_status_0 _ _ _ E0) as (tag & Ee & Hx).
    subst e. right. exists tag. auto.
Qed.

End MainFacts.

(** ** More theorems at work on [SpecModel] *)

Section MoreOnSpecModel.
#[local] Existing Instance SpecModel.model.

(** X1 on a frame in which the window is closed between two confirm keys:
    the first starts the game, the second is dropped. *)
Lemma handle_events_quit_witness :
  Forall (fun ee : Env * Event => snd ee <> QUIT) [Scenario.start]
  /\ _handle_events
       ([Scenario.start] ++ (Scenario.clock 5, QUIT) :: [Scenario.start])
       (SpecModel.new_game [] 0)
     = set_running false (Scenario.playing []).
Proof.
  assert (H : Forall (fun ee : Env * Event => snd ee <> QUIT)
                [Scenario.start])
    by (constructor; [discriminate|constructor]).
  split; [exact H|].
  exact (handle_events_quit [Scenario.start] [Scenario.start]
           (Scenario.clock 5) (SpecModel.new_game [] 0) H).
Defined.

(** X2 on the start of a game followed by ten hard drops. *)
Lemma handle_events_app_witness :
  Forall (fun ee : Env * Event => snd ee <> QUIT) [Scenario.start]
  /\ _handle_events ([Scenario.start] ++ Scenario.ten_drops)
       (SpecModel.new_game [] 0)
     = Scenario.game_over [].
Proof.
  assert (H : Forall (fun ee : Env * Event => snd ee <> QUIT)
                [Scenario.start])
    by (constructor; [discriminate|constructor]).
  split; [exact H|].
  exact (handle_events_app [Scenario.start] Scenario.ten_drops
           (SpecModel.new_game [] 0) H).
Defined.

(** X4 on a hard drop during play. *)
Lemma only_the_menu_stops_witness :
  state (Scenario.playing []) <> MENU
  /\ running (dispatch (Scenario.clock 20) (KEYDOWN K_SPACE [32])
                (Scenario.playing [])) = true.
Proof.
  assert (H : state (Scenario.playing []) <> MENU)
    by (vm_compute; discriminate).
  split; [exact H|].
  rewrite (proj1 (only_the_menu_stops (Scenario.clock 20)
                    (KEYDOWN K_SPACE [32]) (Scenario.playing []) H)).
  vm_compute. reflexivity.
Defined.

(** X5 on the game that has ended and in which a name was typed. *)
Lemma settings_are_constant_witness :
  reachable Scenario.named /\ settings_inv Scenario.named.
Proof.
  split; [exact Scenario_named_reachable|].
  exact (settings_are_constant Scenario.named Scenario_named_reachable).
Defined.

(** X6 on the first frame of a game: the counter is 1, below 30. *)
Lemma counter_stays_below_interval_witness :
  state (Scenario.playing []) = PLAYING
  /\ fall_counter (_update (Scenario.clock 16) (Scenario.playing [])) < 30.
Proof.
  assert (H : state (Scenario.playing []) = PLAYING)
    by (vm_compute; reflexivity).
  split; [exact H|].
  exact (proj1 (counter_stays_below_interval (Scenario.clock 16)
                  (Scenario.playing []) H)).
Defined.

(** X7 on the down key. *)
Lemma other_keys_move_nothing_witness :
  _apply_key_movement K_DOWN (Scenario.playing []) = Scenario.playing [].
Proof.
  apply other_keys_move_nothing; discriminate.
Defined.

Lemma SpecModel_spawn_fits s :
  SpecModel.is_valid_position SpecModel.Board_new (SpecModel.spawn s) = true.
Proof. destruct s; vm_compute; reflexivity. Qed.

Lemma SpecModel_first_piece_fits : first_piece_fits.
Proof.
  intro r.
  change (SpecModel.is_valid_position SpecModel.Board_new
            (fst (SpecModel.get_next_piece
                    (SpecModel.PieceGenerator_new 3 r))) = true).
  assert (E : exists s, fst (SpecModel.get_next_piece
                               (SpecModel.PieceGenerator_new 3 r))
                        = SpecModel.spawn s).
  { unfold SpecModel.PieceGenerator_new.
    change (Z.to_nat 3) with 3%nat. unfold Nat.iter. cbn [nat_rect].
    unfold SpecModel.refill at 3. cbn [SpecModel.bag SpecModel.queue
                                         SpecModel.rng app].
    unfold SpecModel.shuffle. cbv zeta.
    assert (B : (Z.to_nat (r mod 7) < 7)%nat)
      by (pose proof (Z.mod_pos_bound r 7); lia).
    destruct (Z.to_nat (r mod 7)) as [|[|[|[|[|[|[|k]]]]]]]; [..|lia];
      eexists; reflexivity. }
  destruct E as [s E]. rewrite E. apply SpecModel_spawn_fits.
Qed.

(** X8 on the game that has just started, with the pieces of
    [SpecModel]. *)
Lemma piece_in_play_is_valid_witness :
  first_piece_fits /\ reachable (Scenario.playing [])
  /\ state (Scenario.playing []) = PLAYING
  /\ is_valid_position (board (Scenario.playing []))
       (current_piece (Scenario.playing [])) = true.
Proof.
  assert (H : state (Scenario.playing []) = PLAYING)
    by (vm_compute; reflexivity).
  split; [exact SpecModel_first_piece_fits|].
  split; [exact Scenario_playing_reachable|]. split; [exact H|].
  exact (piece_in_play_is_valid SpecModel_moves_only_left
           SpecModel_moves_only_right SpecModel_rotate_keeps_shape
           (Scenario.playing []) SpecModel_first_piece_fits
           Scenario_playing_reachable (or_introl H)).
Defined.

(** X9 on the left key held while the right key is pressed and released. *)
Lemma release_ends_the_repeat_witness :
  state (Scenario.playing []) = PLAYING
  /\ last_key (_handle_events MoreScenarios.left_right_release
                 (Scenario.playing [])) = None.
Proof.
  assert (H : state (Scenario.playing []) = PLAYING)
    by (vm_compute; reflexivity).
  split; [exact H|].
  refine (proj1 (release_ends_the_repeat
                   {| ticks := 100; seed := 0 |} {| ticks := 150; seed := 0 |}
                   {| ticks := 200; seed := 0 |}
                   K_LEFT K_RIGHT [] [] (Scenario.playing []) H _ _ _ _ _ _));
    discriminate.
Defined.

(** X10 on the game that has just started. *)
Lemma soft_drop_press_and_release_witness :
  state (Scenario.playing []) = PLAYING
  /\ soft_drop_active
       (_handle_events [(Scenario.clock 100, KEYDOWN K_DOWN [])]
          (Scenario.playing [])) = true
  /\ current_piece
       (_handle_events [(Scenario.clock 100, KEYDOWN K_DOWN []);
                        (Scenario.clock 300, KEYUP K_DOWN)]
          (Scenario.playing []))
     = current_piece (Scenario.playing []).
Proof.
  assert (H : state (Scenario.playing []) = PLAYING)
    by (vm_compute; reflexivity).
  split; [exact H|].
  destruct (soft_drop_press_and_release (Scenario.clock 100)
              (Scenario.clock 300) [] (Scenario.playing []) H) as (H1 & H2).
  split; [exact H1|]. rewrite H2. reflexivity.
Defined.

(** X11 on the pause key followed by the confirm key, which chooses
    "Continuar". *)
Lemma pause_and_resume_witness :
  state (Scenario.playing []) = PLAYING
  /\ _handle_events MoreScenarios.pause_and_continue (Scenario.playing [])
     = Scenario.playing [].
Proof.
  assert (H : state (Scenario.playing []) = PLAYING)
    by (vm_compute; reflexivity).
  split; [exact H|].
  assert (N : KEYDOWN K_RETURN [13] <> QUIT) by discriminate.
  pose proof (pause_and_resume {| ticks := 100; seed := 0 |}
                {| ticks := 200; seed := 0 |} [112] (KEYDOWN K_RETURN [13])
                (Scenario.playing []) H N) as P.
  cbv zeta in P.
  destruct (P ltac:(vm_compute; reflexivity)) as (_ & E).
  etransitivity; [exact E|]. reflexivity.
Defined.

(** X12 on a hard-drop key after the game has ended. *)
Lemma events_outside_play_keep_the_game_witness :
  state (Scenario.game_over []) = GAME_OVER
  /\ board (dispatch (Scenario.clock 50) (KEYDOWN K_SPACE [32])
              (Scenario.game_over []))
     = board (Scenario.game_over []).
Proof.
  assert (H : state (Scenario.game_over []) = GAME_OVER)
    by (vm_compute; reflexivity).
  split; [exact H|].
  exact (proj1 (events_outside_play_keep_the_game (Scenario.clock 50)
                  (KEYDOWN K_SPACE [32]) (Scenario.game_over [])
                  (or_introl H))).
Defined.

(** X13 on a name of 15 characters: a sixteenth is not taken. *)
Lemma name_entry_edges_witness :
  is_highscore (score_manager MoreScenarios.full_name) = true
  /\ length (player_name MoreScenarios.full_name) = 15%nat
  /\ _handle_game_over_events (KEYDOWN 98 [98]) MoreScenarios.full_name
     = MoreScenarios.full_name.
Proof.
  assert (H : is_highscore (score_manager MoreScenarios.full_name) = true)
    by (vm_compute; reflexivity).
  assert (L : length (player_name MoreScenarios.full_name) = 15%nat)
    by (vm_compute; reflexivity).
  split; [exact H|]. split; [exact L|].
  apply (proj1 (name_entry_edges 98 [98] MoreScenarios.full_name H));
    [discriminate|discriminate|].
  left. rewrite L. apply le_n.
Defined.

(** X14 on the run in which the window is closed, with a score manager
    whose [save_highscores] fails. *)
Lemma failed_save_skips_clean_up_witness :
  save_raises MoreScenarios.failing_save = Some (Exception 2)
  /\ run Scenario.closed_window MoreScenarios.failing_save
       (SpecModel.new_game [] 0)
     = Some (propagated (Exception 2), [save_highscores])
  /\ count pygame_quit [save_highscores] = 0%nat.
Proof.
  assert (R : run Scenario.closed_window MoreScenarios.failing_save
                (SpecModel.new_game [] 0)
              = Some (propagated (Exception 2), [save_highscores]))
    by (vm_compute; reflexivity).
  split; [reflexivity|]. split; [exact R|].
  exact (proj2 (proj2 (failed_save_skips_clean_up Scenario.closed_window
                         MoreScenarios.failing_save (SpecModel.new_game [] 0)
                         (Exception 2) _ _ eq_refl R))).
Defined.

(** X15 on the run in which a collaborator fails, with a
    [pygame.display.quit] that fails at the shutdown: the exception of the
    collaborator is passed on all the same. *)
Lemma clean_up_failures_are_swallowed_witness :
  save_raises MoreScenarios.failing_display_quit = None
  /\ option_map fst
       (run Scenario.failing MoreScenarios.failing_display_quit
          (SpecModel.new_game [] 0))
     = Some (propagated (Exception 1)).
Proof.
  split; [reflexivity|].
  rewrite (clean_up_failures_are_swallowed Scenario.failing
             MoreScenarios.failing_display_quit (SpecModel.new_game [] 0)
             eq_refl).
  - vm_compute. reflexivity.
  - intros e [E|E]; [injection E as E; subst; reflexivity|discriminate E].
Defined.

(** X16 on the game that has ended and in which the name "a-7" was typed:
    the text drawn at 100 ms is "Nombre: a-7|". *)
Lemma name_entry_is_rendered_witness :
  reachable Scenario.named /\ state Scenario.named = GAME_OVER
  /\ texts (_render (fun _ => 0) (Scenario.clock 100) Scenario.named)
     = [[78; 111; 109; 98; 114; 101; 58; 32; 97; 45; 55; 124]].
Proof.
  assert (H : state Scenario.named = GAME_OVER) by (vm_compute; reflexivity).
  split; [exact Scenario_named_reachable|]. split; [exact H|].
  rewrite (proj1 (name_entry_is_rendered (fun _ => 0) (Scenario.clock 100)
                    Scenario.named Scenario_named_reachable H)).
  vm_compute. reflexivity.
Defined.

(** X17 on Linux with a display that only x11 can open: wayland is tried
    and fails, x11 is chosen, and the three drivers after it are not
    tried. *)
Lemma first_working_driver_is_chosen_witness :
  Main.select_driver MoreScenarios.only_x11
    (Main.drivers_for MoreScenarios.posix Main.linux)
  = (Main.driver_set Main.x11,
     [Main.set_video_driver Main.wayland; Main.outward display_init;
      Main.outward display_quit;
      Main.set_video_driver Main.x11; Main.outward display_init])
  /\ exists before after,
      Main.drivers_for MoreScenarios.posix Main.linux
      = before ++ Main.x11 :: after
      /\ MoreScenarios.only_x11 Main.x11 = Main.initialized
      /\ Forall (fun d' => exists v,
                     MoreScenarios.only_x11 d'
                     = Main.init_raises (pygame_error v)) before
      /\ [Main.set_video_driver Main.wayland; Main.outward display_init;
          Main.outward display_quit;
          Main.set_video_driver Main.x11; Main.outward display_init]
         = flat_map Main.failed_attempt before ++ Main.attempt Main.x11.
Proof.
  assert (H : Main.select_driver MoreScenarios.only_x11
                (Main.drivers_for MoreScenarios.posix Main.linux)
              = (Main.driver_set Main.x11,
                 [Main.set_video_driver Main.wayland;
                  Main.outward display_init; Main.outward display_quit;
                  Main.set_video_driver Main.x11; Main.outward display_init]))
    by (vm_compute; reflexivity).
  split; [exact H|].
  exact (first_working_driver_is_chosen MoreScenarios.only_x11
           (Main.drivers_for MoreScenarios.posix Main.linux) Main.x11 _ H).
Defined.

(** X18 on FreeBSD, where no driver is tried and no call is made, and on
    Linux without a display, where the five drivers are tried in turn. *)
Lemma no_driver_exits_with_status_1_witness :
  Main.main MoreScenarios.posix MoreScenarios.freebsd MoreScenarios.only_x11
    MoreScenarios.no_system_exit
    (Main.constructed
       {| SpecModel.current_score := 0; SpecModel.highscores := [] |}
       {| SpecModel.selected_option := 0 |} (Scenario.clock 0))
    Scenario.closed_window Scenario.calm
  = Some (Main.exit_status 1, None, [])
  /\ Main.main MoreScenarios.posix Main.linux MoreScenarios.no_display
       MoreScenarios.no_system_exit
       (Main.constructed
          {| SpecModel.current_score := 0; SpecModel.highscores := [] |}
          {| SpecModel.selected_option := 0 |} (Scenario.clock 0))
       Scenario.closed_window Scenario.calm
     = Some (Main.exit_status 1, None,
             flat_map Main.failed_attempt
               [Main.wayland; Main.x11; Main.fbcon; Main.directfb;
                Main.svgalib]).
Proof.
  split.
  - refine (no_driver_exits_with_status_1 MoreScenarios.posix
              MoreScenarios.freebsd MoreScenarios.only_x11
              MoreScenarios.no_system_exit _ Scenario.closed_window
              Scenario.calm _).
    change (Main.drivers_for MoreScenarios.posix MoreScenarios.freebsd)
      with (@nil Py.str). constructor.
  - refine (no_driver_exits_with_status_1 MoreScenarios.posix
              Main.linux MoreScenarios.no_display
              MoreScenarios.no_system_exit _ Scenario.closed_window
              Scenario.calm _).
    change (Main.drivers_for MoreScenarios.posix Main.linux)
      with [Main.wayland; Main.x11; Main.fbcon; Main.directfb; Main.svgalib].
    repeat constructor; exists false; reflexivity.
Defined.

(** X19 on Linux with x11 and a window that is closed in the second frame:
    wayland is tried, x11 is chosen, pygame is initialized, and [run] saves
    the highscores and shuts pygame down. *)
Lemma status_0_means_run_returned_witness :
  Main.main MoreScenarios.posix Main.linux MoreScenarios.only_x11
    MoreScenarios.no_system_exit
    (Main.constructed
       {| SpecModel.current_score := 0; SpecModel.highscores := [] |}
       {| SpecModel.selected_option := 0 |} (Scenario.clock 0))
    Scenario.closed_window Scenario.calm
  = Some (Main.exit_status 0, Some Main.x11,
          [Main.set_video_driver Main.wayland; Main.outward display_init;
           Main.outward display_quit;
           Main.set_video_driver Main.x11; Main.outward display_init;
           Main.pygame_init;
           Main.outward save_highscores; Main.outward display_quit;
           Main.outward pygame_quit])
  /\ exists d sm u env calls,
      Some Main.x11 = Some d
      /\ Main.constructed
           {| SpecModel.current_score := 0; SpecModel.highscores := [] |}
           {| SpecModel.selected_option := 0 |} (Scenario.clock 0)
         = Main.constructed sm u env
      /\ run Scenario.closed_window Scenario.calm (__init__ sm u env)
         = Some (returned, calls).
Proof.
  assert (H : Main.main MoreScenarios.posix Main.linux MoreScenarios.only_x11
                MoreScenarios.no_system_exit
                (Main.constructed
                   {| SpecModel.current_score := 0;
                      SpecModel.highscores := [] |}
                   {| SpecModel.selected_option := 0 |} (Scenario.clock 0))
                Scenario.closed_window Scenario.calm
              = Some (Main.exit_status 0, Some Main.x11,
                      [Main.set_video_driver Main.wayland;
                       Main.outward display_init; Main.outward display_quit;
                       Main.set_video_driver Main.x11;
                       Main.outward display_init;
                       Main.pygame_init;
                       Main.outward save_highscores;
                       Main.outward display_quit;
                       Main.outward pygame_quit]))
    by (vm_compute; reflexivity).
  split; [exact H|].
  destruct (status_0_means_run_returned _ _ _ _ _ _ _ _ _ H)
    as [(d & sm & u & env & calls & E1 & _ & E3 & E4 & _)|(tag & Hx & _)].
  - exists d, sm, u, env, calls. auto.
  - discriminate Hx.
Defined.

(** X20 on the left key pressed at 1000 ms: no repeat is due at 1170 ms,
    one is due at 1171 ms. *)
Lemma first_repeat_waits_for_the_delay_witness :
  reachable (Scenario.playing []) /\ state (Scenario.playing []) = PLAYING
  /\ repeat_due 1170 Scenario.holding_left = None
  /\ repeat_due 1171 Scenario.holding_left = Some K_LEFT.
Proof.
  assert (H : state (Scenario.playing []) = PLAYING)
    by (vm_compute; reflexivity).
  split; [exact Scenario_playing_reachable|]. split; [exact H|].
  split.
  - refine (first_repeat_waits_for_the_delay {| ticks := 1000; seed := 0 |}
              K_LEFT [] (Scenario.playing []) 1170
              Scenario_playing_reachable H _ _ _ _); discriminate.
  - refine (first_repeat_waits_for_the_delay {| ticks := 1000; seed := 0 |}
              K_LEFT [] (Scenario.playing []) 1171
              Scenario_playing_reachable H _ _ _ _); discriminate.
Defined.

(** X21 on the run in which a collaborator fails during the second
    frame. *)
Lemma pygame_errors_stay_in_the_loop_witness :
  main_loop Scenario.failing (SpecModel.new_game [] 0)
  = Some (loop_raised (Exception 1), [])
  /\ In (body_raises (Exception 1)) Scenario.failing.
Proof.
  assert (H : main_loop Scenario.failing (SpecModel.new_game [] 0)
              = Some (loop_raised (Exception 1), [])) by reflexivity.
  split; [exact H|].
  destruct (pygame_errors_stay_in_the_loop Scenario.failing
              (SpecModel.new_game [] 0) (Exception 1) [] H)
    as [I|[(ev & en & r & I) _]]; [exact I|].
  exfalso. simpl in I. destruct I as [I|[I|[]]]; discriminate I.
Defined.

End MoreOnSpecModel.
